(** * Beam: scatter / gather orchestration

    A shallow embedding of the merge-conflict protocol of
    [src/modules/beam/BeamView.tsx] and of the accept handlers of
    [src/modules/beam/gather/Fusion.tsx].

    The React component is modelled by explicit state passing: a [World]
    holds the zustand beam store, the module store and the component's
    [useState] cells.  A render captures a [Closure] of the values the
    handlers close over; a handler is a function of the closure it was
    created in and of the live world. *)

From Stdlib Require Import String List ZArith Bool Arith Lia DecimalString.
Import ListNotations.

(** ** Messages, rays and fusions *)

Definition DLLMId := string.
Definition DMessageFragment := string.

(** [ray.message.fragments], [fusion.outputDMessage.fragments]. *)
Record DMessage := mkDMessage { fragments : list DMessageFragment }.

Definition emptyMessage : DMessage := mkDMessage [].

(** Modelled from the spec: the ray type is not under [src/], which only
    reads [rayId] and [message.fragments].  The lifecycle states are those
    of the ray state machine. *)
Inductive RayStatus := RayIdle | RayGenerating | RayDone | RayError | RayStopped.

Record BRay := mkBRay {
  rayId : string;
  rayLlmId : option DLLMId;
  message : DMessage;
  rayStatus : RayStatus;
  rayErrorText : option string
}.

(** Modelled from the spec: the fusion type is not under [src/], which reads
    [fusionId], [factoryId], [llmId], [instructions], [stage],
    [outputDMessage] and [errorText].  [fusionInput] is the snapshot of ray
    outputs a run was started on. *)
Inductive FusionStage := StageIdle | StageFusing | StageDone | StageError | StageStopped.

Record BFusion := mkBFusion {
  fusionId : string;
  factoryId : string;
  llmId : option DLLMId;
  instructions : string;
  stage : FusionStage;
  outputDMessage : option DMessage;
  errorText : option string;
  fusionInput : list DMessage
}.

(** Modelled from the spec: a factory declares its id and its two
    capability flags. *)
Record FusionFactory := mkFusionFactory {
  factoryKey : string;
  editableInstructions : bool;
  autoRunnable : bool
}.

(** The hosting session's success callback is an opaque handle; invoking it
    is recorded in the world (see [World]). *)
Definition SuccessCallback := nat.

(** The part of the zustand beam store that the handlers of [BeamView] and
    [Fusion] read ([inputHistory], [inputIssues], [inputReady] and
    [hadImportedRays] only reach the rendering and are left out).
    [idSupply] feeds the identifier generator and [jobsCancelled] records
    the cancellations propagated to the generation-job adapter. *)
Record BeamStore := mkBeamStore {
  rays : list BRay;
  fusions : list BFusion;
  isScattering : bool;
  raysReady : nat;
  currentFactoryId : option string;
  currentGatherLlmId : option DLLMId;
  onSuccessCallback : option SuccessCallback;
  idSupply : nat;
  jobsCancelled : list string
}.

(** What the repository imports from files outside [src/]: the configured
    maximum number of rays, the identifier generator, the factory registry
    lookup and the text reducer of [chat.message]. *)
Record BeamEnv := mkBeamEnv {
  maxRayCount : nat;
  freshId : nat -> string;
  findFusionFactory : string -> option FusionFactory;
  messageFragmentsReduceText : list DMessageFragment -> option string -> string
}.

(** Events a generation job reports back into the store. *)
Inductive JobEvent :=
| JobDelta (text : DMessageFragment)
| JobError (msg : string)
| JobDone.

(** ** Ray state machine *)

Definition rayIsIdle (r : BRay) : bool :=
  match rayStatus r with RayIdle => true | _ => false end.

Definition rayIsGenerating (r : BRay) : bool :=
  match rayStatus r with RayGenerating => true | _ => false end.

Definition rayIsStopped (r : BRay) : bool :=
  match rayStatus r with RayStopped => true | _ => false end.

Definition rayIsTerminal (r : BRay) : bool :=
  match rayStatus r with RayDone | RayError | RayStopped => true | _ => false end.

Definition hasFragments (m : DMessage) : bool :=
  match fragments m with [] => false | _ :: _ => true end.

(** Modelled from the spec: the store's ray predicates are not under [src/].
    A ready ray is "a ray in a terminal, non-stopped state with non-empty
    output". *)
Definition rayIsReady (r : BRay) : bool :=
  rayIsTerminal r && negb (rayIsStopped r) && hasFragments (message r).

Definition setRayStatus (st : RayStatus) (r : BRay) : BRay :=
  mkBRay (rayId r) (rayLlmId r) (message r) st (rayErrorText r).

(** Modelled from the spec: ray creation is not under [src/].  A new ray is
    idle, with no bound model and an empty output. *)
Definition createBRay (id : string) : BRay :=
  mkBRay id None emptyMessage RayIdle None.

(** Modelled from the spec: the ray transitions are not under [src/].
    Starting (or restarting) clears the prior output and error and enters
    [generating]. *)
Definition rayStart (r : BRay) : BRay :=
  mkBRay (rayId r) (rayLlmId r) emptyMessage RayGenerating None.

(** Modelled from the spec: cancelling is not under [src/].  It moves a
    generating ray to [stopped] and leaves any other ray alone. *)
Definition rayCancel (r : BRay) : BRay :=
  if rayIsGenerating r then setRayStatus RayStopped r else r.

(** Modelled from the spec: applying a job event is not under [src/].  The
    output is append-only while generating and immutable once terminal, so
    an event that reaches a ray which is not generating is dropped. *)
Definition rayApplyJobEvent (ev : JobEvent) (r : BRay) : BRay :=
  if rayIsGenerating r then
    match ev with
    | JobDelta text =>
        mkBRay (rayId r) (rayLlmId r) (mkDMessage (fragments (message r) ++ [text]))
               RayGenerating (rayErrorText r)
    | JobError msg =>
        mkBRay (rayId r) (rayLlmId r) (message r) RayError (Some msg)
    | JobDone => setRayStatus RayDone r
    end
  else r.

(** ** Scatter controller *)

Definition countReady (rs : list BRay) : nat := length (filter rayIsReady rs).

Definition anyGenerating (rs : list BRay) : bool := existsb rayIsGenerating rs.

(** Modelled from the spec: the store's bookkeeping is not under [src/].
    [isScattering] is the is-any-ray-generating flag and [raysReady] the
    ready count; both are recomputed after every change of the ray set. *)
Definition withRays (rs : list BRay) (cancelled : list string) (supply : nat)
    (s : BeamStore) : BeamStore :=
  mkBeamStore rs (fusions s) (anyGenerating rs) (countReady rs)
              (currentFactoryId s) (currentGatherLlmId s) (onSuccessCallback s)
              supply (jobsCancelled s ++ cancelled).

(** The ids of the rays whose job has to be cancelled. *)
Definition generatingIds (rs : list BRay) : list string :=
  map rayId (filter rayIsGenerating rs).

Section Store.

Variable env : BeamEnv.

(** Modelled from the spec: out-of-range requests are clamped into
    [0 .. maxRayCount]. *)
Definition clampRayCount (n : Z) : nat :=
  Z.to_nat (Z.min (Z.max 0 n) (Z.of_nat (maxRayCount env))).

(** Modelled from the spec: [k] new idle rays with fresh ids. *)
Definition freshRays (supply k : nat) : list BRay :=
  map (fun i => createBRay (freshId env (supply + i))) (seq 0 k).

(** Modelled from the spec: [setRayCount] is not under [src/] (only its call
    in [handleRaySetCount] is).  It keeps the leading rays by index, cancels
    the job of every trailing ray that is generating before dropping it, and
    appends new idle rays. *)
Definition setRayCount (n : Z) (s : BeamStore) : BeamStore :=
  let target := clampRayCount n in
  let kept := firstn target (rays s) in
  let dropped := skipn target (rays s) in
  let added := target - length (rays s) in
  withRays (kept ++ freshRays (idSupply s) added)
           (generatingIds dropped) (idSupply s + added) s.

(** Modelled from the spec: [startScatteringAll] is not under [src/].  Rays
    already generating are left untouched; every other ray is started when
    [restart] holds or the ray is idle. *)
Definition startRay (restart : bool) (r : BRay) : BRay :=
  if rayIsGenerating r then r
  else if restart || rayIsIdle r then rayStart r else r.

Definition startScatteringAll (restart : bool) (s : BeamStore) : BeamStore :=
  withRays (map (startRay restart) (rays s)) [] (idSupply s) s.

(** Modelled from the spec: [stopScatteringAll] is not under [src/].  It
    cancels every generating ray; terminal rays are unaffected. *)
Definition stopScatteringAll (s : BeamStore) : BeamStore :=
  withRays (map rayCancel (rays s)) (generatingIds (rays s)) (idSupply s) s.

Definition onRay (id : string) (f : BRay -> BRay) (r : BRay) : BRay :=
  if String.eqb (rayId r) id then f r else r.

(** Modelled from the spec: the per-ray entry points are not under [src/].
    A job event is applied to the ray it is addressed to, a ray can be
    stopped on its own, and a ray can be restarted on its own. *)
Definition rayJobEvent (id : string) (ev : JobEvent) (s : BeamStore) : BeamStore :=
  withRays (map (onRay id (rayApplyJobEvent ev)) (rays s)) [] (idSupply s) s.

Definition rayStop (id : string) (s : BeamStore) : BeamStore :=
  withRays (map (onRay id rayCancel) (rays s))
           (generatingIds (filter (fun r => String.eqb (rayId r) id) (rays s)))
           (idSupply s) s.

Definition rayRestart (id : string) (s : BeamStore) : BeamStore :=
  withRays (map (onRay id (startRay true)) (rays s)) [] (idSupply s) s.

(** ** Gather controller (store side) *)

Definition isSet {A : Type} (o : option A) : bool :=
  match o with Some _ => true | None => false end.

(** [BeamView.tsx], line 58:
    [state.raysReady >= 2 && state.currentFactoryId !== null
     && state.currentGatherLlmId !== null]. *)
Definition canGather (s : BeamStore) : bool :=
  (2 <=? raysReady s) && isSet (currentFactoryId s) && isSet (currentGatherLlmId s).

(** Modelled from the spec: a change of the fusion list leaves the rays and
    their flags alone. *)
Definition withFusions (fs : list BFusion) (cancelled : list string) (supply : nat)
    (s : BeamStore) : BeamStore :=
  mkBeamStore (rays s) fs (isScattering s) (raysReady s)
              (currentFactoryId s) (currentGatherLlmId s) (onSuccessCallback s)
              supply (jobsCancelled s ++ cancelled).

Definition fusionIsFusing (f : BFusion) : bool :=
  match stage f with StageFusing => true | _ => false end.

(** Modelled from the spec: a fusion run reads a snapshot of the outputs of
    the rays that are ready when it starts. *)
Definition readySnapshot (rs : list BRay) : list DMessage :=
  map message (filter rayIsReady rs).

(** Modelled from the spec: starting a fusion clears its output and error
    and enters [fusing]; cancelling moves a fusing fusion to [stopped]. *)
Definition fusionStart (rs : list BRay) (f : BFusion) : BFusion :=
  mkBFusion (fusionId f) (factoryId f) (llmId f) (instructions f)
            StageFusing (Some emptyMessage) None (readySnapshot rs).

Definition fusionCancel (f : BFusion) : BFusion :=
  if fusionIsFusing f then
    mkBFusion (fusionId f) (factoryId f) (llmId f) (instructions f)
              StageStopped (outputDMessage f) (errorText f) (fusionInput f)
  else f.

(** The auto-runnable flag of a factory id, through [findFusionFactory]
    (an unknown id has no factory, hence nothing to run). *)
Definition factoryAutoRunnable (fid : string) : bool :=
  match findFusionFactory env fid with
  | Some fac => autoRunnable fac
  | None => false
  end.

(** Modelled from the spec: [createFusion] is not under [src/] (only its call
    in [handleCreateFusion] is).  Creation is a silent no-op unless the
    ready count is at least 2 and a factory and a target model are chosen;
    the new fusion is started at once when its factory is auto-runnable and
    auto-start-on-scatter-completion is enabled. *)
Definition createFusion (autoStart : bool) (s : BeamStore) : BeamStore :=
  match currentFactoryId s, currentGatherLlmId s with
  | Some fid, Some llm =>
      if 2 <=? raysReady s then
        let f := mkBFusion (freshId env (idSupply s)) fid (Some llm) ""
                           StageIdle None None [] in
        let f' := if factoryAutoRunnable fid && autoStart
                  then fusionStart (rays s) f else f in
        withFusions (fusions s ++ [f']) [] (S (idSupply s)) s
      else s
  | _, _ => s
  end.

(** Whether the selected strategy runs without further user input. *)
Definition selectedAutoRunnable (s : BeamStore) : bool :=
  match currentFactoryId s with
  | Some fid => factoryAutoRunnable fid
  | None => false
  end.

Definition onFusion (id : string) (f : BFusion -> BFusion) (x : BFusion) : BFusion :=
  if String.eqb (fusionId x) id then f x else x.

(** Modelled from the spec: [toggleFusionGathering] is not under [src/].  A
    fusing fusion is cancelled and becomes [stopped]; any other fusion
    (re)enters [fusing] on a fresh snapshot. *)
Definition toggleFusion (rs : list BRay) (f : BFusion) : BFusion :=
  if fusionIsFusing f then fusionCancel f else fusionStart rs f.

Definition fusingIds (id : string) (fs : list BFusion) : list string :=
  map fusionId (filter (fun f => String.eqb (fusionId f) id && fusionIsFusing f) fs).

Definition toggleFusionGathering (id : string) (s : BeamStore) : BeamStore :=
  withFusions (map (onFusion id (toggleFusion (rays s))) (fusions s))
              (fusingIds id (fusions s)) (idSupply s) s.

(** Modelled from the spec: [removeFusion] is not under [src/]. *)
Definition removeFusion (id : string) (s : BeamStore) : BeamStore :=
  withFusions (filter (fun f => negb (String.eqb (fusionId f) id)) (fusions s))
              (fusingIds id (fusions s)) (idSupply s) s.

(** Modelled from the spec: a fusion's output is append-only while fusing
    and immutable once terminal. *)
Definition fusionApplyJobEvent (ev : JobEvent) (f : BFusion) : BFusion :=
  if fusionIsFusing f then
    match ev with
    | JobDelta text =>
        let old := match outputDMessage f with Some m => fragments m | None => [] end in
        mkBFusion (fusionId f) (factoryId f) (llmId f) (instructions f)
                  StageFusing (Some (mkDMessage (old ++ [text]))) (errorText f)
                  (fusionInput f)
    | JobError msg =>
        mkBFusion (fusionId f) (factoryId f) (llmId f) (instructions f)
                  StageError (outputDMessage f) (Some msg) (fusionInput f)
    | JobDone =>
        mkBFusion (fusionId f) (factoryId f) (llmId f) (instructions f)
                  StageDone (outputDMessage f) (errorText f) (fusionInput f)
    end
  else f.

Definition fusionJobEvent (id : string) (ev : JobEvent) (s : BeamStore) : BeamStore :=
  withFusions (map (onFusion id (fusionApplyJobEvent ev)) (fusions s)) [] (idSupply s) s.

End Store.

(** ** The view: [BeamView.tsx] and [Fusion.tsx] *)

(** [useModuleBeamStore]: the settings shared by all beams. *)
Record ModuleBeamStore := mkModuleBeamStore {
  cardAdd : bool;
  gatherAutoStartAfterScatter : bool
}.

(** The two [React.useState] cells of [BeamView] (lines 31-32). *)
Record ViewState := mkViewState {
  hasAutoMerged : bool;
  warnIsScattering : bool
}.

(** Everything a handler can read or change.  [accepted] lists the
    invocations of the success callback and [clipboard] the calls of
    [copyToClipboard] (text, label), most recent first. *)
Record World := mkWorld {
  store : BeamStore;
  moduleStore : ModuleBeamStore;
  view : ViewState;
  accepted : list (SuccessCallback * DMessage);
  clipboard : list (string * string)
}.

(** The values a render of [BeamView] binds and its callbacks close over
    (lines 31-65). *)
Record Closure := mkClosure {
  c_hasAutoMerged : bool;
  c_warnIsScattering : bool;
  c_gatherAutoStartAfterScatter : bool;
  c_isScattering : bool;
  c_raysReady : nat;
  c_canGather : bool;
  c_raysCount : nat
}.

Definition render (w : World) : Closure :=
  mkClosure (hasAutoMerged (view w)) (warnIsScattering (view w))
            (gatherAutoStartAfterScatter (moduleStore w))
            (isScattering (store w)) (raysReady (store w))
            (canGather (store w))
            (length (map rayId (rays (store w)))).

Definition withStore (s : BeamStore) (w : World) : World :=
  mkWorld s (moduleStore w) (view w) (accepted w) (clipboard w).

Definition setHasAutoMerged (b : bool) (w : World) : World :=
  mkWorld (store w) (moduleStore w) (mkViewState b (warnIsScattering (view w)))
          (accepted w) (clipboard w).

Definition setWarnIsScattering (b : bool) (w : World) : World :=
  mkWorld (store w) (moduleStore w) (mkViewState (hasAutoMerged (view w)) b)
          (accepted w) (clipboard w).

Definition invokeSuccess (cb : SuccessCallback) (m : DMessage) (w : World) : World :=
  mkWorld (store w) (moduleStore w) (view w) ((cb, m) :: accepted w) (clipboard w).

Definition copyToClipboard (text label : string) (w : World) : World :=
  mkWorld (store w) (moduleStore w) (view w) (accepted w) ((text, label) :: clipboard w).

Inductive RaysOperation := OpCopy | OpUse.

Definition newline : string := String (Ascii.ascii_of_nat 10) EmptyString.

(** The separator of line 80: three newlines, three dashes, three newlines. *)
Definition raysSeparator : string :=
  (newline ++ newline ++ newline ++ "---" ++ newline ++ newline ++ newline)%string.

Section View.

Variable env : BeamEnv.

(** Lines 70 and 72. *)
Definition handleRaySetCount (n : Z) (w : World) : World :=
  withStore (setRayCount env n (store w)) w.

Definition handleRayIncreaseCount (c : Closure) (w : World) : World :=
  withStore (setRayCount env (Z.of_nat (c_raysCount c) + 1) (store w)) w.

(** Lines 74-88: reads the live store through [getState()]. *)
Definition handleRaysOperation (operation : RaysOperation) (w : World) : World :=
  let allFragments := flat_map (fun ray => fragments (message ray)) (rays (store w)) in
  match allFragments with
  | [] => w
  | _ :: _ =>
      match operation with
      | OpCopy =>
          copyToClipboard
            (messageFragmentsReduceText env allFragments (Some raysSeparator))
            "All Beams"%string w
      | OpUse =>
          match onSuccessCallback (store w) with
          | Some cb => invokeSuccess cb (mkDMessage allFragments) w
          | None => w
          end
      end
  end.

(** Lines 90-93. *)
Definition handleScatterStart (restart : bool) (w : World) : World :=
  let w1 := setHasAutoMerged false w in
  withStore (startScatteringAll restart (store w1)) w1.

(** Lines 96-103: [isScattering] is the value captured by the render that
    created the callback, [createFusion] acts on the live store. *)
Definition handleCreateFusion (c : Closure) (w : World) : World :=
  if c_isScattering c then setWarnIsScattering true w
  else withStore (createFusion env (gatherAutoStartAfterScatter (moduleStore w)) (store w)) w.

(** Lines 106-110. *)
Definition handleStartMergeConfirmation (c : Closure) (w : World) : World :=
  let w1 := setWarnIsScattering false w in
  let w2 := withStore (stopScatteringAll (store w1)) w1 in
  handleCreateFusion c w2.

(** Line 112. *)
Definition handleStartMergeDenial (w : World) : World :=
  setWarnIsScattering false w.

(** Line 116. *)
Definition shallAutoMerge (c : Closure) : bool :=
  c_gatherAutoStartAfterScatter c && c_canGather c
  && negb (c_isScattering c) && negb (c_hasAutoMerged c).

(** Line 126. *)
Definition shallResumeMerge (c : Closure) : bool :=
  c_warnIsScattering c && negb (c_isScattering c)
  && negb (c_gatherAutoStartAfterScatter c).

(** Lines 117-122. *)
Definition autoMergeEffect (c : Closure) (w : World) : World :=
  if shallAutoMerge c
  then handleStartMergeConfirmation c (setHasAutoMerged true w)
  else w.

(** Lines 127-130. *)
Definition resumeMergeEffect (c : Closure) (w : World) : World :=
  if shallResumeMerge c then handleStartMergeConfirmation c w else w.

(** The effects of one render, in declaration order.  Both effects list
    their guard among their dependencies, and a guard that holds is turned
    off by the effect itself, so an effect whose guard holds runs. *)
Definition runEffects (c : Closure) (w : World) : World :=
  resumeMergeEffect c (autoMergeEffect c w).

(** Render the current world and run the effects of that render. *)
Definition commit (w : World) : World := runEffects (render w) w.

(** [Fusion.tsx], lines 73-78 and 80-86. *)
Definition findFusion (id : string) (s : BeamStore) : option BFusion :=
  find (fun fusion => String.eqb (fusionId fusion) id) (fusions s).

Definition fusionOutputFragments (o : option BFusion) : list DMessageFragment :=
  match o with
  | Some fusion =>
      match outputDMessage fusion with
      | Some m => fragments m
      | None => []
      end
  | None => []
  end.

Definition handleFusionCopyToClipboard (id : string) (w : World) : World :=
  match findFusion id (store w) with
  | Some fusion =>
      match outputDMessage fusion with
      | Some m =>
          match fragments m with
          | [] => w
          | _ :: _ =>
              copyToClipboard
                (messageFragmentsReduceText env (fragments m) None)
                "Merge"%string w
          end
      | None => w
      end
  | None => w
  end.

Definition handleFusionUse (id : string) (w : World) : World :=
  match findFusion id (store w) with
  | Some fusion =>
      match outputDMessage fusion with
      | Some m =>
          match fragments m, onSuccessCallback (store w) with
          | _ :: _, Some cb => invokeSuccess cb m w
          | _, _ => w
          end
      | None => w
      end
  | None => w
  end.

Definition handleFusionRemove (id : string) (w : World) : World :=
  withStore (removeFusion id (store w)) w.

Definition handleToggleFusionGather (id : string) (w : World) : World :=
  withStore (toggleFusionGathering id (store w)) w.

(** What can happen to a mounted [BeamView]: the callbacks it hands to its
    children and to the shortcuts, and changes that reach it from outside
    (any update of the beam store, such as a job event or a per-ray control,
    and a change of the module setting). *)
Inductive Event :=
| EvRaySetCount (n : Z)
| EvRayIncreaseCount
| EvRaysOperation (operation : RaysOperation)
| EvScatterStart (restart : bool)
| EvScatterStop
| EvAddFusion
| EvMergeConfirm
| EvMergeDeny
| EvFusionCopy (id : string)
| EvFusionUse (id : string)
| EvFusionRemove (id : string)
| EvFusionToggle (id : string)
| EvStoreUpdate (f : BeamStore -> BeamStore)
| EvModuleSetting (autoStart : bool).

(** The handler an event runs, with the closure of the render it comes
    from.  The confirmation modal exists only while [warnIsScattering]
    (line 242), so its two callbacks cannot be reached otherwise. *)
Definition handle (e : Event) (c : Closure) (w : World) : World :=
  match e with
  | EvRaySetCount n => handleRaySetCount n w
  | EvRayIncreaseCount => handleRayIncreaseCount c w
  | EvRaysOperation operation => handleRaysOperation operation w
  | EvScatterStart restart => handleScatterStart restart w
  | EvScatterStop => withStore (stopScatteringAll (store w)) w
  | EvAddFusion => handleCreateFusion c w
  | EvMergeConfirm =>
      if c_warnIsScattering c then handleStartMergeConfirmation c w else w
  | EvMergeDeny =>
      if c_warnIsScattering c then handleStartMergeDenial w else w
  | EvFusionCopy id => handleFusionCopyToClipboard id w
  | EvFusionUse id => handleFusionUse id w
  | EvFusionRemove id => handleFusionRemove id w
  | EvFusionToggle id => handleToggleFusionGather id w
  | EvStoreUpdate f => withStore (f (store w)) w
  | EvModuleSetting autoStart =>
      mkWorld (store w) (mkModuleBeamStore (cardAdd (moduleStore w)) autoStart)
              (view w) (accepted w) (clipboard w)
  end.

(** One event: the handler runs in the closure of the last render, then the
    component renders again and its effects run. *)
Definition dispatch (e : Event) (w : World) : World :=
  commit (handle e (render w) w).

Fixpoint run (es : list Event) (w : World) : World :=
  match es with
  | [] => w
  | e :: es' => run es' (dispatch e w)
  end.

(** How often the auto-merge effect fires while [es] is processed. *)
Definition autoMergeFires (w : World) : nat :=
  if shallAutoMerge (render w) then 1 else 0.

Fixpoint autoMergeCount (es : list Event) (w : World) : nat :=
  match es with
  | [] => 0
  | e :: es' =>
      autoMergeFires (handle e (render w) w) + autoMergeCount es' (dispatch e w)
  end.

Definition isScatterStart (e : Event) : bool :=
  match e with EvScatterStart _ => true | _ => false end.

(** The two events by which the user accepts an output. *)
Definition isAcceptEvent (e : Event) : bool :=
  match e with
  | EvFusionUse _ | EvRaysOperation OpUse => true
  | _ => false
  end.

Definition allFragments (w : World) : list DMessageFragment :=
  flat_map (fun ray => fragments (message ray)) (rays (store w)).

End View.

(** ** Store invariant *)

(** The two derived flags agree with the ray set. *)
Definition storeConsistent (s : BeamStore) : Prop :=
  isScattering s = anyGenerating (rays s) /\ raysReady s = countReady (rays s).

Definition nonEmptyOutput (x : SuccessCallback * DMessage) : Prop :=
  fragments (snd x) <> [].

(** Late job events, each addressed to a ray (or fusion) by its id. *)
Definition rayJobEvents (evs : list (string * JobEvent)) (s : BeamStore) : BeamStore :=
  fold_left (fun acc e => rayJobEvent (fst e) (snd e) acc) evs s.

Definition fusionJobEvents (evs : list (string * JobEvent)) (s : BeamStore) : BeamStore :=
  fold_left (fun acc e => fusionJobEvent (fst e) (snd e) acc) evs s.

(** ** A concrete session *)

Module Demo.

Local Open Scope string_scope.

Definition idOf (n : nat) : string :=
  "id" ++ NilZero.string_of_uint (Nat.to_uint n).

Definition factories (fid : string) : option FusionFactory :=
  if String.eqb fid "fuse" then Some (mkFusionFactory "fuse" false true)
  else if String.eqb fid "custom" then Some (mkFusionFactory "custom" true false)
  else None.

Definition reduceText (fs : list DMessageFragment) (sep : option string) : string :=
  String.concat (match sep with Some s => s | None => newline ++ newline end) fs.

Definition env : BeamEnv := mkBeamEnv 8 idOf factories reduceText.

Definition emptyStore (factory : option string) : BeamStore :=
  mkBeamStore [] [] false 0 factory (Some "gpt") (Some 7) 0 [].

Definition mount (factory : option string) (autoStart : bool) : World :=
  mkWorld (emptyStore factory) (mkModuleBeamStore false autoStart)
          (mkViewState false false) [] [].

Definition finishRay (id : string) (text : string) : list Event :=
  [ EvStoreUpdate (rayJobEvent id (JobDelta text));
    EvStoreUpdate (rayJobEvent id JobDone) ].

(** Three rays are requested, started and complete. *)
Definition scatterThree : list Event :=
  ([ EvRaySetCount 3; EvScatterStart false ]
   ++ finishRay "id0" "alpha" ++ finishRay "id1" "beta" ++ finishRay "id2" "gamma")%list.

(** Two rays complete while no merge strategy is selected. *)
Definition worldNoFactory : World :=
  run env ([ EvRaySetCount 2; EvScatterStart false ]
           ++ finishRay "id0" "alpha" ++ finishRay "id1" "beta")%list
      (mount None true).

(** A pass in which the auto-merge has fired. *)
Definition worldMerged : World :=
  run env scatterThree (mount (Some "fuse") true).

(** The same pass with a strategy that is not auto-runnable. *)
Definition worldCustomReady : World :=
  handle env (EvStoreUpdate (rayJobEvent "id2" JobDone))
    (render (run env (removelast scatterThree) (mount (Some "custom") true)))
    (run env (removelast scatterThree) (mount (Some "custom") true)).

(** After the auto-merge, the third ray is restarted on its own and the user
    asks for another fusion: the confirmation is pending. *)
Definition worldPending : World :=
  run env [ EvStoreUpdate (rayRestart "id2"); EvAddFusion ] worldMerged.

(** ... and that ray then completes by itself. *)
Definition worldPendingFinished : World :=
  handle env (EvStoreUpdate (rayJobEvent "id2" JobDone))
    (render (dispatch env (EvStoreUpdate (rayJobEvent "id2" (JobDelta "delta"))) worldPending))
    (dispatch env (EvStoreUpdate (rayJobEvent "id2" (JobDelta "delta"))) worldPending).

(** A pending confirmation with auto-start disabled. *)
Definition worldPendingManual : World :=
  run env ([ EvRaySetCount 3; EvScatterStart false ]
           ++ finishRay "id0" "alpha" ++ finishRay "id1" "beta"
           ++ [ EvAddFusion ])%list
      (mount (Some "fuse") false).

Definition worldPendingManualFinished : World :=
  handle env (EvStoreUpdate (rayJobEvent "id2" JobDone))
    (render (dispatch env (EvStoreUpdate (rayJobEvent "id2" (JobDelta "gamma"))) worldPendingManual))
    (dispatch env (EvStoreUpdate (rayJobEvent "id2" (JobDelta "gamma"))) worldPendingManual).

(** A confirmation pending in a pass whose auto-merge has not fired, at the
    moment the last ray completes. *)
Definition worldPendingAuto : World :=
  run env ([ EvRaySetCount 3; EvScatterStart false ]
           ++ finishRay "id0" "alpha" ++ finishRay "id1" "beta"
           ++ [ EvAddFusion ])%list
      (mount (Some "fuse") true).

Definition worldPendingAutoFinished : World :=
  handle env (EvStoreUpdate (rayJobEvent "id2" JobDone))
    (render (dispatch env (EvStoreUpdate (rayJobEvent "id2" (JobDelta "gamma"))) worldPendingAuto))
    (dispatch env (EvStoreUpdate (rayJobEvent "id2" (JobDelta "gamma"))) worldPendingAuto).

(** A fusion that has produced output, in a session with three done rays. *)
Definition worldFused : World :=
  run env [ EvStoreUpdate (fusionJobEvent "id3" (JobDelta "merged"));
            EvStoreUpdate (fusionJobEvent "id3" JobDone) ] worldMerged.

(** Four rays of which the third is generating again. *)
Definition worldFourRays : World :=
  run env [ EvRaySetCount 4; EvStoreUpdate (rayRestart "id2") ] worldMerged.

End Demo.

(** ** The controls [BeamView] hands to its children and to the shortcuts *)

Module BeamControls.

Inductive ShortcutKey := KeyEnter | KeyEsc.

(** One entry of the list passed to [useGlobalShortcuts]; [action] is the
    event the callback amounts to.  A field the source leaves out
    ([ctrl], [disabled]) is falsy. *)
Record Shortcut := mkShortcut {
  key : ShortcutKey;
  ctrl : bool;
  action : Event;
  disabled : bool;
  level : nat
}.

(** [BeamView.tsx], lines 143-146. *)
Definition shortcuts (c : Closure) : list Shortcut :=
  mkShortcut KeyEnter true (EvScatterStart false) (c_isScattering c) 1
  :: (if c_isScattering c
      then [mkShortcut KeyEsc false EvScatterStop false (10 + 1)]
      else []).

Definition enabledActions (c : Closure) : list Event :=
  map action (filter (fun s => negb (disabled s)) (shortcuts c)).

(** Line 193, [startBusy]. *)
Definition startBusy (c : Closure) : bool := c_isScattering c.

(** Line 194, [startRestart]. *)
Definition startRestart (isMobile : bool) (c : Closure) : bool :=
  negb isMobile && (1 <=? c_raysReady c) && (c_raysReady c <? c_raysCount c)
  && negb (c_isScattering c).

(** Line 207, [showRaysOps]: [undefined] is [None]. *)
Definition showRaysOps (c : Closure) : option nat :=
  if c_isScattering c || (c_raysReady c <? 2) then None else Some (c_raysReady c).

End BeamControls.

(** ** The fusion card: [Fusion.tsx] *)

Module FusionCard.

(** The [useState] cell of line 36, and the dependency ([isFusing]) with
    which the effect of lines 65-67 last ran ([None] before the mount). *)
Record CardState := mkCardState {
  showLlmSelector : bool;
  effectDep : option bool
}.

Record Card := mkCard {
  cardStore : BeamStore;
  cardState : CardState
}.

Inductive CardEvent :=
| IconClick (shiftKey : bool)
| StoreChanged (s : BeamStore).

Section Card.

Variable env : BeamEnv.
Variable fusionId : string.

(** Line 39: [store.fusions.find(...) ?? null]. *)
Definition fusionOf (s : BeamStore) : option BFusion := findFusion fusionId s.

(** Line 46.  [fusionIsFusing] of [beam.gather] is not under [src/]; on a
    missing fusion it is false, as [fusion?.stage === 'fusing'] of line 160
    is. *)
Definition isFusing (s : BeamStore) : bool :=
  match fusionOf s with
  | Some fusion => fusionIsFusing fusion
  | None => false
  end.

(** Lines 52 and 106-108: the card renders nothing without a fusion or
    without its factory. *)
Definition rendersCard (s : BeamStore) : bool :=
  match fusionOf s with
  | Some fusion => isSet (findFusionFactory env (factoryId fusion))
  | None => false
  end.

(** Line 131: [llmComponent] reaches the controls unless
    [isFusing || !showLlmSelector]. *)
Definition llmSelectorShown (c : Card) : bool :=
  rendersCard (cardStore c)
  && negb (isFusing (cardStore c) || negb (showLlmSelector (cardState c))).

(** Line 135: [onIconClick] is [undefined] while fusing. *)
Definition iconClickable (c : Card) : bool :=
  rendersCard (cardStore c) && negb (isFusing (cardStore c)).

(** Lines 88-96. *)
Definition handleIconClick (shiftKey : bool) (st : CardState) : CardState :=
  if shiftKey then st
  else mkCardState (negb (showLlmSelector st)) (effectDep st).

(** Lines 65-67: the effect runs when [isFusing] differs from its value at
    the previous run, and closes the selector when the fusion is fusing. *)
Definition hideSelectorEffect (fusing : bool) (st : CardState) : CardState :=
  match effectDep st with
  | Some seen =>
      if Bool.eqb seen fusing then st
      else mkCardState (if fusing then false else showLlmSelector st) (Some fusing)
  | None => mkCardState (if fusing then false else showLlmSelector st) (Some fusing)
  end.

Definition commitCard (c : Card) : Card :=
  mkCard (cardStore c) (hideSelectorEffect (isFusing (cardStore c)) (cardState c)).

Definition handleCard (e : CardEvent) (c : Card) : Card :=
  match e with
  | IconClick shiftKey =>
      if iconClickable c
      then mkCard (cardStore c) (handleIconClick shiftKey (cardState c))
      else c
  | StoreChanged s => mkCard s (cardState c)
  end.

Definition stepCard (e : CardEvent) (c : Card) : Card := commitCard (handleCard e c).

Definition runCard (es : list CardEvent) (c : Card) : Card :=
  fold_left (fun acc e => stepCard e acc) es c.

(** The card as mounted on a store: the selector starts closed and the
    effect runs once. *)
Definition mountCard (s : BeamStore) : Card :=
  commitCard (mkCard s (mkCardState false None)).

End Card.

End FusionCard.

(** ** The news page: [AppNews] *)

Module AppNews.

Definition NEWS_INITIAL_COUNT : nat := 3.
Definition NEWS_LOAD_STEP : nat := 2.

(** [Array.prototype.filter] with the element's index. *)
Fixpoint filterIdx {A : Type} (p : A -> nat -> bool) (l : list A) (idx : nat) : list A :=
  match l with
  | [] => []
  | x :: l' =>
      if p x idx then x :: filterIdx p l' (S idx) else filterIdx p l' (S idx)
  end.

(** [Array.prototype.map] with the element's index, each element giving a
    run of blocks. *)
Fixpoint flatMapIdx {A B : Type} (f : A -> nat -> list B) (l : list A) (idx : nat) : list B :=
  match l with
  | [] => []
  | x :: l' => f x idx ++ flatMapIdx f l' (S idx)
  end.

(** What the page shows below its heading. *)
Inductive Block (NewsItem : Type) :=
| BeamCallout
| NewsCard (idx : nat) (ni : NewsItem) (priority : bool)
| RoadmapCallout
| BuildInfoCard
| ExpandButton.

Arguments BeamCallout {NewsItem}.
Arguments NewsCard {NewsItem}.
Arguments RoadmapCallout {NewsItem}.
Arguments BuildInfoCard {NewsItem}.
Arguments ExpandButton {NewsItem}.

Section News.

(** [NewsItems] of [news.data] is not under [src/]: any list. *)
Variable NewsItem : Type.
Variable NewsItems : list NewsItem.

(** [useState<number>(NEWS_INITIAL_COUNT - 1)]. *)
Definition initialLastNewsIdx : nat := NEWS_INITIAL_COUNT - 1.

(** [NewsItems.filter((_, idx) => idx <= lastNewsIdx)]. *)
Definition news (lastNewsIdx : nat) : list NewsItem :=
  filterIdx (fun _ idx => idx <=? lastNewsIdx) NewsItems 0.

(** [news[0] ?? null]. *)
Definition firstNews (lastNewsIdx : nat) : option NewsItem :=
  nth_error (news lastNewsIdx) 0.

Definition canExpand (lastNewsIdx : nat) : bool :=
  length (news lastNewsIdx) <? length NewsItems.

(** The click on "Previous News": [setLastNewsIdx(index => index + NEWS_LOAD_STEP)]. *)
Definition expand (lastNewsIdx : nat) : nat := lastNewsIdx + NEWS_LOAD_STEP.

Definition isBeamCallout (b : Block NewsItem) : bool :=
  match b with BeamCallout => true | _ => false end.

Definition isRoadmapCallout (b : Block NewsItem) : bool :=
  match b with RoadmapCallout => true | _ => false end.

Definition isExpandButton (b : Block NewsItem) : bool :=
  match b with ExpandButton => true | _ => false end.

Definition isNewsCard (b : Block NewsItem) : bool :=
  match b with NewsCard _ _ _ => true | _ => false end.

(** The container of lines 151-256. *)
Definition renderNewsItem (ni : NewsItem) (idx : nat) : list (Block NewsItem) :=
  (if idx =? 2 then [BeamCallout] else [])
  ++ [NewsCard idx ni (idx =? 0)]
  ++ (if idx =? 3 then [RoadmapCallout] else []).

Definition renderNews (isMobile : bool) (lastNewsIdx : nat) : list (Block NewsItem) :=
  flatMapIdx renderNewsItem (news lastNewsIdx) 0
  ++ (if negb isMobile then [BuildInfoCard] else [])
  ++ (if canExpand lastNewsIdx then [ExpandButton] else []).

End News.

Arguments news {NewsItem}.
Arguments firstNews {NewsItem}.
Arguments canExpand {NewsItem}.
Arguments renderNewsItem {NewsItem}.
Arguments renderNews {NewsItem}.
Arguments isBeamCallout {NewsItem}.
Arguments isRoadmapCallout {NewsItem}.
Arguments isExpandButton {NewsItem}.
Arguments isNewsCard {NewsItem}.

End AppNews.

(** ** Message body: [ContentFragments] *)

Module ContentFragments.

(** The fragment shapes the component distinguishes: [fragment.ft],
    [fragment.fId] and, for a content fragment, [fragment.part.pt] with the
    field of the part that is rendered.  [PartOther] stands for any other
    [pt]. *)
Inductive Part :=
| PartText (text : string)
| PartImageRef (imageRef : string)
| PartPlaceholder (pText : string)
| PartError (error : string)
| PartOther (pt : string).

Inductive Fragment :=
| ContentFragment (fId : string) (part : Part)
| OtherFragment (ft : string) (fId : string).

Definition fragmentId (f : Fragment) : string :=
  match f with ContentFragment fId _ | OtherFragment _ fId => fId end.

Definition isContent (f : Fragment) : bool :=
  match f with ContentFragment _ _ => true | OtherFragment _ _ => false end.

Inductive MessageRole := RoleAssistant | RoleSystem | RoleUser.

Inductive Layout := EditLayout | StartLayout | EndLayout.

(** [ChatMessageTextPartEditState | null]: the edited text per fragment id. *)
Definition TextEditsState := string -> option string.

(** The elements the component returns, with the props that depend on the
    fragment. *)
Inductive Element :=
| ContentPartTextEdit (key : string) (fragmentId : string) (text : string)
                      (editedText : option string)
| ContentPartText (key : string) (textPartText : string)
| ContentPartImageRef (key : string) (fragmentId : string) (imageRef : string)
                      (canDelete : bool)
| ContentPartPlaceholder (key : string) (placeholderText : string)
                         (showAsDanger showAsItalic : bool).

Definition elementKey (e : Element) : string :=
  match e with
  | ContentPartTextEdit key _ _ _ | ContentPartText key _
  | ContentPartImageRef key _ _ _ | ContentPartPlaceholder key _ _ _ => key
  end.

Definition offersDelete (e : Element) : bool :=
  match e with ContentPartImageRef _ _ _ canDelete => canDelete | _ => false end.

Definition isTextElement (e : Element) : bool :=
  match e with
  | ContentPartTextEdit _ _ _ _ | ContentPartText _ _ => true
  | _ => false
  end.

Section Render.

Variable fragments : list Fragment.
Variable messageRole : MessageRole.
Variable textEditsState : option TextEditsState.

(** Lines 64-66. *)
Definition fromAssistant : bool :=
  match messageRole with RoleAssistant => true | _ => false end.

Definition isEditingText : bool := isSet textEditsState.

Definition isMonoFragment : bool := length fragments <? 2.

(** Line 68. *)
Definition layout : Layout :=
  if isEditingText then EditLayout
  else if fromAssistant then StartLayout else EndLayout.

(** Lines 69-153: [null] for a fragment that is not a content fragment. *)
Definition renderFragment (fragment : Fragment) : option Element :=
  match fragment with
  | OtherFragment _ _ => None
  | ContentFragment fId part =>
      Some
        match part with
        | PartText text =>
            match textEditsState with
            | Some edits => ContentPartTextEdit ("edit-" ++ fId) fId text (edits fId)
            | None => ContentPartText fId text
            end
        | PartImageRef imageRef =>
            ContentPartImageRef fId fId imageRef (negb isMonoFragment)
        | PartPlaceholder pText => ContentPartPlaceholder fId pText false true
        | PartError error => ContentPartPlaceholder fId error true true
        | PartOther pt =>
            ContentPartPlaceholder fId ("Unknown Content fragment: " ++ pt) true false
        end
  end.

Fixpoint filterBoolean (l : list (option Element)) : list Element :=
  match l with
  | [] => []
  | Some e :: l' => e :: filterBoolean l'
  | None :: l' => filterBoolean l'
  end.

(** [props.fragments.map(...).filter(Boolean)]. *)
Definition render : list Element := filterBoolean (map renderFragment fragments).

End Render.

End ContentFragments.

(** ** Model vendors: OpenPipe and Gemini *)

(** [x || ''] on a possibly missing string. *)
Definition orElse (o : option string) (fallback : string) : string :=
  match o with
  | Some EmptyString => fallback
  | Some s => s
  | None => fallback
  end.

Module OpenPipe.

(** [Partial<DOpenPipeServiceSettings>]: a stored setup may lack a field,
    which is why the source reads them with [?.]. *)
Record Setup := mkSetup {
  openPipeKey : option string;
  openPipeTags : option string
}.

Record OpenAIAccessSchema := mkAccess {
  dialect : string;
  oaiKey : string;
  oaiOrg : string;
  oaiHost : string;
  heliKey : string;
  moderationCheck : bool
}.

Definition initializeSetup : Setup := mkSetup (Some ""%string) (Some ""%string).

(** [setup.openPipeKey?.length >= 40]: a comparison with [undefined] is false. *)
Definition validateSetup (setup : Setup) : bool :=
  match openPipeKey setup with
  | Some k => 40 <=? String.length k
  | None => false
  end.

Definition getTransportAccess (partialSetup : option Setup) : OpenAIAccessSchema :=
  mkAccess "openpipe"
    (orElse (match partialSetup with Some p => openPipeKey p | None => None end) "")
    (orElse (match partialSetup with Some p => openPipeTags p | None => None end) "")
    "" "" false.

End OpenPipe.

Module Gemini.

Record Setup := mkSetup {
  geminiKey : option string;
  geminiHost : option string;
  minSafetyLevel : option string
}.

Record GeminiAccessSchema := mkAccess {
  dialect : string;
  accessKey : string;
  accessHost : string;
  accessMinSafetyLevel : string
}.

Definition HARM_BLOCK_THRESHOLD_UNSPECIFIED : string :=
  "HARM_BLOCK_THRESHOLD_UNSPECIFIED".

Definition initializeSetup : Setup :=
  mkSetup (Some ""%string) (Some ""%string) (Some HARM_BLOCK_THRESHOLD_UNSPECIFIED).

(** [setup.geminiKey?.length > 0]. *)
Definition validateSetup (setup : Setup) : bool :=
  match geminiKey setup with
  | Some k => 0 <? String.length k
  | None => false
  end.

Definition getTransportAccess (partialSetup : option Setup) : GeminiAccessSchema :=
  mkAccess "gemini"
    (orElse (match partialSetup with Some p => geminiKey p | None => None end) "")
    (orElse (match partialSetup with Some p => geminiHost p | None => None end) "")
    (orElse (match partialSetup with Some p => minSafetyLevel p | None => None end)
            HARM_BLOCK_THRESHOLD_UNSPECIFIED).

End Gemini.

(** ** Build information: the lists of [BuildInfoSheet] *)

Module BuildInfo.

(** [arr.map((x, idx, arr) => text(x) + (idx < arr.length - 1 ? ', ' : ''))],
    the text of lines 91 and 92 with the markup left out; the comparison is
    on integers, as [arr.length - 1] is -1 for an empty array. *)
Fixpoint mapSeparated {A : Type} (text : A -> string) (arrLength : nat)
    (l : list A) (idx : nat) : list string :=
  match l with
  | [] => []
  | x :: l' =>
      (text x ++ (if (Z.of_nat idx <? Z.of_nat arrLength - 1)%Z then ", " else ""))%string
      :: mapSeparated text arrLength l' (S idx)
  end.

Definition listText {A : Type} (text : A -> string) (arr : list A) : string :=
  String.concat "" (mapSeparated text (length arr) arr 0).

(** Line 91: an entry of [Release.TechLevels] reads [name v version]. *)
Definition techLevelText (entry : string * string) : string :=
  (fst entry ++ " v" ++ snd entry)%string.

End BuildInfo.

(** ** Ray set lemmas *)

Lemma anyGenerating_false_iff (rs : list BRay) :
  anyGenerating rs = false <-> forall r, In r rs -> rayStatus r <> RayGenerating.
Proof.
  unfold anyGenerating. induction rs as [|r rs IH]; simpl.
  - split; [intros _ r [] | reflexivity].
  - rewrite orb_false_iff, IH. unfold rayIsGenerating. split.
    + intros [Hr Hrs] x [<- | Hx]; [destruct (rayStatus r); congruence | auto].
    + intros H. split; [|intros x Hx; apply H; auto].
      specialize (H r (or_introl eq_refl)). destruct (rayStatus r); congruence.
Qed.

Lemma anyGenerating_true_iff (rs : list BRay) :
  anyGenerating rs = true <-> exists r, In r rs /\ rayStatus r = RayGenerating.
Proof.
  unfold anyGenerating. rewrite existsb_exists. unfold rayIsGenerating.
  split; intros [r [Hin Hr]]; exists r; split; auto;
    destruct (rayStatus r); congruence.
Qed.

Lemma rayCancel_idle (r : BRay) : rayIsGenerating r = false -> rayCancel r = r.
Proof. unfold rayCancel. intros ->. reflexivity. Qed.

Lemma map_rayCancel_quiet (rs : list BRay) :
  anyGenerating rs = false -> map rayCancel rs = rs.
Proof.
  unfold anyGenerating. induction rs as [|r rs IH]; simpl; [reflexivity|].
  rewrite orb_false_iff. intros [Hr Hrs].
  rewrite rayCancel_idle, IH; auto.
Qed.

Lemma rayCancel_ready (r : BRay) : rayIsReady (rayCancel r) = rayIsReady r.
Proof.
  unfold rayCancel, rayIsGenerating, rayIsReady, rayIsTerminal, rayIsStopped,
    setRayStatus.
  destruct r as [i l m st e]; simpl. destruct st; reflexivity.
Qed.

Lemma countReady_rayCancel (rs : list BRay) :
  countReady (map rayCancel rs) = countReady rs.
Proof.
  unfold countReady. induction rs as [|r rs IH]; simpl; [reflexivity|].
  rewrite rayCancel_ready. destruct (rayIsReady r); simpl; congruence.
Qed.

Lemma rayCancel_not_generating (r : BRay) : rayIsGenerating (rayCancel r) = false.
Proof.
  unfold rayCancel. destruct (rayIsGenerating r) eqn:E; [reflexivity | exact E].
Qed.

Lemma anyGenerating_rayCancel (rs : list BRay) :
  anyGenerating (map rayCancel rs) = false.
Proof.
  unfold anyGenerating. induction rs as [|r rs IH]; simpl; [reflexivity|].
  rewrite rayCancel_not_generating, IH. reflexivity.
Qed.

Lemma generatingIds_quiet (rs : list BRay) :
  anyGenerating rs = false -> generatingIds rs = [].
Proof.
  unfold anyGenerating, generatingIds. induction rs as [|r rs IH]; simpl; [reflexivity|].
  rewrite orb_false_iff. intros [-> Hrs]. auto.
Qed.

Lemma withRays_consistent rs cancelled supply s :
  storeConsistent (withRays rs cancelled supply s).
Proof. split; reflexivity. Qed.

Lemma stopScatteringAll_quiet (s : BeamStore) :
  storeConsistent s -> isScattering s = false -> stopScatteringAll s = s.
Proof.
  intros [Hsc Hrd] Hq. rewrite Hsc in Hq.
  unfold stopScatteringAll, withRays.
  rewrite (map_rayCancel_quiet _ Hq), (generatingIds_quiet _ Hq), app_nil_r.
  rewrite <- Hrd, <- Hsc. destruct s; reflexivity.
Qed.

Lemma stopScatteringAll_canGather (s : BeamStore) :
  storeConsistent s -> canGather (stopScatteringAll s) = canGather s.
Proof.
  intros [_ Hrd]. unfold canGather, stopScatteringAll, withRays; simpl.
  rewrite countReady_rayCancel, <- Hrd. reflexivity.
Qed.

Lemma createFusion_rays (env : BeamEnv) (b : bool) (s : BeamStore) :
  rays (createFusion env b s) = rays s.
Proof.
  unfold createFusion.
  destruct (currentFactoryId s), (currentGatherLlmId s); try reflexivity.
  destruct (2 <=? raysReady s); reflexivity.
Qed.

Lemma createFusion_canGather (env : BeamEnv) (b : bool) (s : BeamStore) :
  canGather s = true ->
  exists f,
    fusions (createFusion env b s) = fusions s ++ [f]
    /\ fusionId f = freshId env (idSupply s)
    /\ stage f = (if selectedAutoRunnable env s && b then StageFusing else StageIdle).
Proof.
  unfold canGather, createFusion, isSet, selectedAutoRunnable.
  destruct (currentFactoryId s) as [fid|], (currentGatherLlmId s) as [llm|];
    rewrite ?andb_false_r; try discriminate.
  destruct (2 <=? raysReady s); try discriminate. intros _. simpl.
  eexists. split; [reflexivity|]. split;
    destruct (factoryAutoRunnable env fid && b); reflexivity.
Qed.

Lemma createFusion_blocked (env : BeamEnv) (b : bool) (s : BeamStore) :
  canGather s = false -> createFusion env b s = s.
Proof.
  unfold canGather, createFusion, isSet.
  destruct (currentFactoryId s), (currentGatherLlmId s); try reflexivity.
  destruct (2 <=? raysReady s); [discriminate | reflexivity].
Qed.

(** ** The view's cells under the handlers *)

Section ViewFacts.

Variable env : BeamEnv.

Lemma handleCreateFusion_hasAutoMerged c w :
  hasAutoMerged (view (handleCreateFusion env c w)) = hasAutoMerged (view w).
Proof. unfold handleCreateFusion. destruct (c_isScattering c); reflexivity. Qed.

Lemma handleStartMergeConfirmation_hasAutoMerged c w :
  hasAutoMerged (view (handleStartMergeConfirmation env c w)) = hasAutoMerged (view w).
Proof.
  unfold handleStartMergeConfirmation. rewrite handleCreateFusion_hasAutoMerged.
  reflexivity.
Qed.

Lemma handleRaysOperation_hasAutoMerged op w :
  hasAutoMerged (view (handleRaysOperation env op w)) = hasAutoMerged (view w).
Proof.
  unfold handleRaysOperation.
  destruct (flat_map _ _); [reflexivity|].
  destruct op; [reflexivity|]. destruct (onSuccessCallback (store w)); reflexivity.
Qed.

Lemma handleFusionCopyToClipboard_view id w :
  view (handleFusionCopyToClipboard env id w) = view w.
Proof.
  unfold handleFusionCopyToClipboard.
  destruct (findFusion id (store w)) as [f|]; [|reflexivity].
  destruct (outputDMessage f) as [m|]; [|reflexivity].
  destruct (fragments m); reflexivity.
Qed.

Lemma handleFusionUse_view id w : view (handleFusionUse id w) = view w.
Proof.
  unfold handleFusionUse.
  destruct (findFusion id (store w)) as [f|]; [|reflexivity].
  destruct (outputDMessage f) as [m|]; [|reflexivity].
  destruct (fragments m); [reflexivity|].
  destruct (onSuccessCallback (store w)); reflexivity.
Qed.

Lemma handle_hasAutoMerged e w c :
  isScatterStart e = false ->
  hasAutoMerged (view (handle env e c w)) = hasAutoMerged (view w).
Proof.
  destruct e; simpl; intros He; try discriminate; try reflexivity.
  - apply handleRaysOperation_hasAutoMerged.
  - apply handleCreateFusion_hasAutoMerged.
  - destruct (c_warnIsScattering c);
      [apply handleStartMergeConfirmation_hasAutoMerged | reflexivity].
  - destruct (c_warnIsScattering c); reflexivity.
  - rewrite handleFusionCopyToClipboard_view. reflexivity.
  - rewrite handleFusionUse_view. reflexivity.
Qed.

Lemma commit_hasAutoMerged w :
  hasAutoMerged (view (commit env w))
  = hasAutoMerged (view w) || shallAutoMerge (render w).
Proof.
  unfold commit, runEffects, resumeMergeEffect, autoMergeEffect.
  destruct (shallResumeMerge (render w)), (shallAutoMerge (render w));
    rewrite ?handleStartMergeConfirmation_hasAutoMerged; simpl;
    rewrite ?orb_true_r, ?orb_false_r; reflexivity.
Qed.

Lemma shallAutoMerge_unarmed w :
  hasAutoMerged (view w) = true -> shallAutoMerge (render w) = false.
Proof.
  unfold shallAutoMerge, render; simpl. intros ->.
  rewrite andb_false_r. reflexivity.
Qed.

Lemma autoMergeCount_unarmed es : forall w,
  forallb (fun e => negb (isScatterStart e)) es = true ->
  hasAutoMerged (view w) = true ->
  autoMergeCount env es w = 0.
Proof.
  induction es as [|e es IH]; intros w Hes Hw; [reflexivity|].
  simpl in Hes. apply andb_prop in Hes as [He Hes].
  apply negb_true_iff in He. simpl.
  assert (H1 : hasAutoMerged (view (handle env e (render w) w)) = true)
    by (rewrite handle_hasAutoMerged; assumption).
  unfold autoMergeFires. rewrite (shallAutoMerge_unarmed _ H1). simpl.
  apply IH; [assumption|].
  unfold dispatch. rewrite commit_hasAutoMerged, H1. reflexivity.
Qed.

Lemma autoMergeCount_le_1 es : forall w,
  forallb (fun e => negb (isScatterStart e)) es = true ->
  autoMergeCount env es w <= 1.
Proof.
  induction es as [|e es IH]; intros w Hes; [simpl; lia|].
  simpl in Hes. apply andb_prop in Hes as [He Hes]. simpl.
  unfold autoMergeFires.
  destruct (shallAutoMerge (render (handle env e (render w) w))) eqn:Hf.
  - rewrite autoMergeCount_unarmed; [lia | assumption |].
    unfold dispatch. rewrite commit_hasAutoMerged, Hf. apply orb_true_r.
  - specialize (IH (dispatch env e w) Hes). lia.
Qed.

(** The effects of the render that follows a commit find nothing to do:
    one pass of [runEffects] reaches a quiescent world. *)
Lemma commit_quiescent w :
  shallAutoMerge (render (commit env w)) = false
  /\ shallResumeMerge (render (commit env w)) = false.
Proof.
  unfold commit, runEffects, resumeMergeEffect, autoMergeEffect.
  destruct (shallAutoMerge (render w)) eqn:Ha, (shallResumeMerge (render w)) eqn:Hr.
  - unfold shallAutoMerge, shallResumeMerge, render in Ha, Hr; simpl in Ha, Hr.
    destruct (gatherAutoStartAfterScatter (moduleStore w));
      simpl in Ha; rewrite ?andb_false_r in Hr; discriminate.
  - unfold shallAutoMerge in Ha. simpl in Ha.
    apply andb_prop in Ha as [Ha _]. apply andb_prop in Ha as [_ Hs].
    apply negb_true_iff in Hs.
    unfold handleStartMergeConfirmation, handleCreateFusion. simpl. rewrite Hs.
    unfold shallAutoMerge, shallResumeMerge; simpl.
    rewrite andb_false_r. split; reflexivity.
  - unfold shallResumeMerge in Hr. simpl in Hr.
    apply andb_prop in Hr as [Hr Hg]. apply andb_prop in Hr as [_ Hs].
    apply negb_true_iff in Hs. apply negb_true_iff in Hg.
    unfold handleStartMergeConfirmation, handleCreateFusion. simpl. rewrite Hs.
    unfold shallAutoMerge, shallResumeMerge; simpl. rewrite Hg.
    split; reflexivity.
  - split; assumption.
Qed.

Lemma commit_idempotent w : commit env (commit env w) = commit env w.
Proof.
  destruct (commit_quiescent w) as [Ha Hr].
  unfold commit at 1. unfold runEffects, resumeMergeEffect, autoMergeEffect.
  rewrite Ha, Hr. reflexivity.
Qed.

End ViewFacts.

(** ** The store invariant is maintained *)

Lemma withFusions_consistent fs cancelled supply s :
  storeConsistent s -> storeConsistent (withFusions fs cancelled supply s).
Proof. intros H. exact H. Qed.

Lemma createFusion_consistent env b s :
  storeConsistent s -> storeConsistent (createFusion env b s).
Proof.
  intros H. unfold createFusion.
  destruct (currentFactoryId s), (currentGatherLlmId s); try exact H.
  destruct (2 <=? raysReady s); exact H.
Qed.

Lemma handleCreateFusion_consistent env c w :
  storeConsistent (store w) -> storeConsistent (store (handleCreateFusion env c w)).
Proof.
  intros H. unfold handleCreateFusion.
  destruct (c_isScattering c); [exact H | apply createFusion_consistent; exact H].
Qed.

Lemma handleStartMergeConfirmation_consistent env c w :
  storeConsistent (store (handleStartMergeConfirmation env c w)).
Proof.
  unfold handleStartMergeConfirmation.
  apply handleCreateFusion_consistent. apply withRays_consistent.
Qed.

Lemma commit_consistent env w :
  storeConsistent (store w) -> storeConsistent (store (commit env w)).
Proof.
  intros H. unfold commit, runEffects, resumeMergeEffect, autoMergeEffect.
  destruct (shallResumeMerge (render w)), (shallAutoMerge (render w));
    try apply handleStartMergeConfirmation_consistent; exact H.
Qed.

(** Every event keeps the flags in step with the ray set, provided an
    outside store update does. *)
Lemma dispatch_consistent env e w :
  storeConsistent (store w) ->
  (forall f, e = EvStoreUpdate f -> storeConsistent (f (store w))) ->
  storeConsistent (store (dispatch env e w)).
Proof.
  intros H Hf. unfold dispatch. apply commit_consistent.
  destruct e; simpl; try exact H; try apply withRays_consistent.
  - unfold handleRaysOperation. destruct (flat_map _ _); [exact H|].
    destruct operation; [exact H|].
    destruct (onSuccessCallback (store w)); exact H.
  - apply handleCreateFusion_consistent. exact H.
  - destruct (warnIsScattering (view w));
      [apply handleStartMergeConfirmation_consistent | exact H].
  - destruct (warnIsScattering (view w)); exact H.
  - unfold handleFusionCopyToClipboard.
    destruct (findFusion id (store w)) as [f|]; [|exact H].
    destruct (outputDMessage f) as [m|]; [|exact H].
    destruct (fragments m); exact H.
  - unfold handleFusionUse.
    destruct (findFusion id (store w)) as [f|]; [|exact H].
    destruct (outputDMessage f) as [m|]; [|exact H].
    destruct (fragments m); [exact H|].
    destruct (onSuccessCallback (store w)); exact H.
  - apply Hf. reflexivity.
Qed.

(** ** Auto-merge *)

(** C1 (as amended): in a world where auto-start-on-scatter-completion is
    enabled, [canGather] holds (ready count at least 2, a factory id and a
    target model id selected), no ray is generating and the auto-merge has
    not fired, the next commit creates exactly one fusion through
    [createFusion] (fusing when the selected factory is auto-runnable, idle
    otherwise), leaves the rays alone and marks the auto-merge as fired.
    Between two calls of [handleScatterStart] the auto-merge effect fires at
    most once, whatever else happens to the store; [handleScatterStart]
    re-arms it for either value of [restart], and nothing else does. *)
Theorem auto_merge_once (env : BeamEnv) :
  (forall w,
      storeConsistent (store w) ->
      gatherAutoStartAfterScatter (moduleStore w) = true ->
      canGather (store w) = true ->
      isScattering (store w) = false ->
      hasAutoMerged (view w) = false ->
      exists f,
        fusions (store (commit env w)) = fusions (store w) ++ [f]
        /\ stage f = (if selectedAutoRunnable env (store w)
                      then StageFusing else StageIdle)
        /\ rays (store (commit env w)) = rays (store w)
        /\ hasAutoMerged (view (commit env w)) = true
        /\ warnIsScattering (view (commit env w)) = false)
  /\ (forall es w,
         forallb (fun e => negb (isScatterStart e)) es = true ->
         autoMergeFires w + autoMergeCount env es (commit env w) <= 1)
  /\ (forall restart w,
         hasAutoMerged (view (handleScatterStart restart w)) = false)
  /\ (forall e w,
         isScatterStart e = false ->
         hasAutoMerged (view w) = true ->
         hasAutoMerged (view (dispatch env e w)) = true).
Proof.
  repeat split.
  - intros w Hc Hauto Hg Hs Hm.
    assert (Ha : shallAutoMerge (render w) = true)
      by (unfold shallAutoMerge, render; simpl; rewrite Hauto, Hg, Hs, Hm; reflexivity).
    assert (Hr : shallResumeMerge (render w) = false)
      by (unfold shallResumeMerge, render; simpl; rewrite Hauto, andb_false_r; reflexivity).
    unfold commit, runEffects, resumeMergeEffect, autoMergeEffect.
    rewrite Ha, Hr.
    unfold handleStartMergeConfirmation, handleCreateFusion. simpl. rewrite Hs. simpl.
    rewrite (stopScatteringAll_quiet _ Hc Hs), Hauto.
    destruct (createFusion_canGather env true (store w) Hg) as [f [Hf [_ Hst]]].
    exists f. rewrite andb_true_r in Hst.
    rewrite createFusion_rays. auto.
  - intros es w Hes. unfold autoMergeFires.
    destruct (shallAutoMerge (render w)) eqn:Hf.
    + rewrite autoMergeCount_unarmed; [lia | assumption |].
      rewrite commit_hasAutoMerged, Hf. apply orb_true_r.
    + pose proof (autoMergeCount_le_1 env es (commit env w) Hes). lia.
  - intros e w He Hw. unfold dispatch.
    rewrite commit_hasAutoMerged, handle_hasAutoMerged, Hw; auto.
Qed.

Lemma auto_merge_once_witness :
  (exists f,
      fusions (store (commit Demo.env Demo.worldCustomReady))
      = fusions (store Demo.worldCustomReady) ++ [f]
      /\ stage f = StageIdle)
  /\ autoMergeFires Demo.worldCustomReady
     + autoMergeCount Demo.env [EvAddFusion; EvScatterStop]
         (commit Demo.env Demo.worldCustomReady) <= 1
  /\ hasAutoMerged (view (dispatch Demo.env EvAddFusion Demo.worldMerged)) = true.
Proof.
  destruct (auto_merge_once Demo.env) as [Hfire [Honce [_ Hkeep]]].
  split; [|split].
  - assert (Hc : storeConsistent (store Demo.worldCustomReady))
      by (split; reflexivity).
    destruct (Hfire Demo.worldCustomReady Hc eq_refl eq_refl eq_refl eq_refl)
      as [f [Hf [Hst _]]].
    exists f. split; [exact Hf | exact Hst].
  - apply Honce. reflexivity.
  - apply Hkeep; reflexivity.
Defined.

(** C1 (as stated) fails.  With auto-start enabled, two ready rays and none
    generating, but no factory selected, no fusion is created.  The pass is
    re-armed by [handleScatterStart false] as well: with all rays terminal
    that call starts nothing and a second fusion is auto-created.  And with
    a factory that is not auto-runnable the fusion is created idle. *)
Lemma auto_merge_as_stated_fails :
  (gatherAutoStartAfterScatter (moduleStore Demo.worldNoFactory) = true
   /\ raysReady (store Demo.worldNoFactory) = 2
   /\ anyGenerating (rays (store Demo.worldNoFactory)) = false
   /\ hasAutoMerged (view Demo.worldNoFactory) = false
   /\ fusions (store (commit Demo.env Demo.worldNoFactory)) = [])
  /\ (hasAutoMerged (view Demo.worldMerged) = true
      /\ length (fusions (store Demo.worldMerged)) = 1
      /\ hasAutoMerged (view (handleScatterStart false Demo.worldMerged)) = false
      /\ rays (store (dispatch Demo.env (EvScatterStart false) Demo.worldMerged))
         = rays (store Demo.worldMerged)
      /\ length (fusions (store (dispatch Demo.env (EvScatterStart false)
                                   Demo.worldMerged))) = 2)
  /\ (gatherAutoStartAfterScatter (moduleStore Demo.worldCustomReady) = true
      /\ raysReady (store Demo.worldCustomReady) = 3
      /\ anyGenerating (rays (store Demo.worldCustomReady)) = false
      /\ map stage (fusions (store (commit Demo.env Demo.worldCustomReady)))
         = [StageIdle]).
Proof. vm_compute. repeat split. Qed.

(** ** Requesting a fusion *)

(** C5: in every state, the [canGather] a render exposes is true exactly
    when the ready-ray count is at least 2, a fusion-factory id is selected
    and a target model id is selected. *)
Theorem canGather_iff (w : World) :
  c_canGather (render w) = true
  <-> (2 <= raysReady (store w)
       /\ currentFactoryId (store w) <> None
       /\ currentGatherLlmId (store w) <> None).
Proof.
  change (c_canGather (render w)) with (canGather (store w)).
  unfold canGather, isSet.
  rewrite !andb_true_iff, Nat.leb_le.
  destruct (currentFactoryId (store w)), (currentGatherLlmId (store w));
    intuition congruence.
Qed.

(** C2 (as amended): a request to create a fusion, made from the render of
    the current state, branches on whether a ray is generating.  If none is,
    the pending flag is left alone and [createFusion] runs at once on the
    live store: it appends exactly one fusion when [canGather] holds (ready
    count at least 2, a factory id and a target model id selected) and is a
    no-op otherwise.  If one is, the store (rays and fusions) is unchanged
    and the pending confirmation is raised. *)
Theorem handleCreateFusion_branches (env : BeamEnv) (w : World) :
  storeConsistent (store w) ->
  ((forall r, In r (rays (store w)) -> rayStatus r <> RayGenerating) ->
     handleCreateFusion env (render w) w
     = withStore (createFusion env (gatherAutoStartAfterScatter (moduleStore w))
                    (store w)) w
     /\ view (handleCreateFusion env (render w) w) = view w
     /\ (canGather (store w) = true ->
         length (fusions (store (handleCreateFusion env (render w) w)))
         = S (length (fusions (store w))))
     /\ (canGather (store w) = false ->
         store (handleCreateFusion env (render w) w) = store w))
  /\ ((exists r, In r (rays (store w)) /\ rayStatus r = RayGenerating) ->
      store (handleCreateFusion env (render w) w) = store w
      /\ warnIsScattering (view (handleCreateFusion env (render w) w)) = true
      /\ hasAutoMerged (view (handleCreateFusion env (render w) w))
         = hasAutoMerged (view w)).
Proof.
  intros [Hsc _]. unfold handleCreateFusion, render; simpl. rewrite Hsc. split.
  - intros Hq. apply anyGenerating_false_iff in Hq. rewrite Hq.
    repeat split.
    + intros Hg. simpl.
      destruct (createFusion_canGather env
                  (gatherAutoStartAfterScatter (moduleStore w)) (store w) Hg)
        as [f [Hf _]].
      rewrite Hf, length_app. simpl. lia.
    + intros Hg. simpl. apply createFusion_blocked. exact Hg.
  - intros Hg. apply anyGenerating_true_iff in Hg. rewrite Hg.
    repeat split.
Qed.

Lemma handleCreateFusion_branches_witness :
  length (fusions (store (handleCreateFusion Demo.env (render Demo.worldMerged)
                            Demo.worldMerged))) = 2
  /\ store (handleCreateFusion Demo.env (render Demo.worldPending) Demo.worldPending)
     = store Demo.worldPending
  /\ warnIsScattering
       (view (handleCreateFusion Demo.env (render Demo.worldPending)
                Demo.worldPending)) = true.
Proof.
  split.
  - assert (Hc : storeConsistent (store Demo.worldMerged)) by (split; reflexivity).
    destruct (handleCreateFusion_branches Demo.env _ Hc) as [Hq _].
    destruct Hq as [_ [_ [Hlen _]]].
    + intros r Hin. vm_compute in Hin.
      destruct Hin as [<- | [<- | [<- | []]]]; discriminate.
    + apply Hlen. reflexivity.
  - assert (Hc : storeConsistent (store Demo.worldPending)) by (split; reflexivity).
    destruct (handleCreateFusion_branches Demo.env _ Hc) as [_ Hb].
    destruct Hb as [Hst [Hwarn _]].
    + exists (mkBRay "id2" None emptyMessage RayGenerating None).
      split; [vm_compute; auto | reflexivity].
    + split; assumption.
Defined.

(** C2 (as stated) fails.  Two rays are ready, none is generating and no
    factory is selected: the request neither creates a fusion nor raises the
    pending confirmation. *)
Lemma request_without_factory_creates_nothing :
  map rayStatus (rays (store Demo.worldNoFactory)) = [RayDone; RayDone]
  /\ isScattering (store Demo.worldNoFactory) = false
  /\ raysReady (store Demo.worldNoFactory) = 2
  /\ currentFactoryId (store Demo.worldNoFactory) = None
  /\ fusions (store Demo.worldNoFactory) = []
  /\ fusions (store (handleCreateFusion Demo.env (render Demo.worldNoFactory)
                       Demo.worldNoFactory)) = []
  /\ warnIsScattering (view (handleCreateFusion Demo.env (render Demo.worldNoFactory)
                               Demo.worldNoFactory)) = false
  /\ dispatch Demo.env EvAddFusion Demo.worldNoFactory = Demo.worldNoFactory.
Proof. vm_compute. repeat split. Qed.

(** ** Denying the pending confirmation *)

(** C6: denying the pending confirmation clears the pending flag and changes
    nothing else: the store (every ray and fusion, the scatter flags and the
    record of cancelled jobs) is the same and no callback is invoked.  In a
    world whose effects have run, in particular while a ray is generating,
    the render that follows the denial has no effect to run either, so the
    whole event amounts to clearing the flag. *)
Theorem handleStartMergeDenial_frame (env : BeamEnv) (w : World) :
  (warnIsScattering (view (handleStartMergeDenial w)) = false
   /\ store (handleStartMergeDenial w) = store w
   /\ fusions (store (handleStartMergeDenial w)) = fusions (store w)
   /\ rays (store (handleStartMergeDenial w)) = rays (store w)
   /\ jobsCancelled (store (handleStartMergeDenial w)) = jobsCancelled (store w)
   /\ accepted (handleStartMergeDenial w) = accepted w
   /\ hasAutoMerged (view (handleStartMergeDenial w)) = hasAutoMerged (view w))
  /\ (warnIsScattering (view w) = true ->
      shallAutoMerge (render w) = false ->
      dispatch env EvMergeDeny w = handleStartMergeDenial w)
  /\ (isScattering (store w) = true -> shallAutoMerge (render w) = false).
Proof.
  split; [repeat split | split].
  - intros Hwarn Hq. unfold dispatch. simpl. rewrite Hwarn.
    unfold commit, runEffects, resumeMergeEffect, autoMergeEffect.
    change (shallAutoMerge (render (handleStartMergeDenial w)))
      with (shallAutoMerge (render w)).
    rewrite Hq. reflexivity.
  - intros Hs. unfold shallAutoMerge, render; simpl. rewrite Hs.
    rewrite andb_false_r. reflexivity.
Qed.

Lemma handleStartMergeDenial_frame_witness :
  dispatch Demo.env EvMergeDeny Demo.worldPending
  = handleStartMergeDenial Demo.worldPending
  /\ shallAutoMerge (render Demo.worldPending) = false.
Proof.
  destruct (handleStartMergeDenial_frame Demo.env Demo.worldPending)
    as [_ [Hd Hq]].
  split.
  - apply Hd; [reflexivity | apply Hq; reflexivity].
  - apply Hq. reflexivity.
Defined.

(** ** Confirming the pending confirmation *)

(** The confirm callback of a render in which a ray was generating stops the
    rays and then raises the pending flag again: its [handleCreateFusion]
    still reads the [isScattering] of that render. *)
Lemma handleStartMergeConfirmation_stale (env : BeamEnv) (w : World) :
  isScattering (store w) = true ->
  handleStartMergeConfirmation env (render w) w
  = setWarnIsScattering true (withStore (stopScatteringAll (store w)) w).
Proof.
  intros Hs. unfold handleStartMergeConfirmation, handleCreateFusion, render; simpl.
  rewrite Hs. reflexivity.
Qed.

(** C3: evaluation at the failing input.  A confirmation is pending while
    ray [id2] is generating, in a pass whose auto-merge has already fired.
    Confirming stops the ray, yet no fusion is added and the confirmation is
    pending again once the effects have run. *)
Theorem confirm_with_ray_generating :
  isScattering (store Demo.worldPending) = true
  /\ warnIsScattering (view Demo.worldPending) = true
  /\ canGather (store Demo.worldPending) = true
  /\ map rayStatus (rays (store Demo.worldPending)) = [RayDone; RayDone; RayGenerating]
  /\ map rayStatus (rays (store (dispatch Demo.env EvMergeConfirm Demo.worldPending)))
     = [RayDone; RayDone; RayStopped]
  /\ fusions (store (dispatch Demo.env EvMergeConfirm Demo.worldPending))
     = fusions (store Demo.worldPending)
  /\ warnIsScattering (view (dispatch Demo.env EvMergeConfirm Demo.worldPending)) = true
  /\ commit Demo.env (dispatch Demo.env EvMergeConfirm Demo.worldPending)
     = dispatch Demo.env EvMergeConfirm Demo.worldPending.
Proof. vm_compute. repeat split. Qed.

(** With auto-start disabled the same callback creates no fusion either; the
    fusion comes from the resume effect of the next render. *)
Example confirm_rescued_by_resume_effect :
  fusions (store (handle Demo.env EvMergeConfirm (render Demo.worldPendingManual)
                    Demo.worldPendingManual)) = []
  /\ length (fusions (store (dispatch Demo.env EvMergeConfirm Demo.worldPendingManual))) = 1.
Proof. vm_compute. split; reflexivity. Qed.

(** ** Scatter finishing while the confirmation is pending *)

(** The cases in which a pending confirmation is resolved once no ray is
    generating any more.  With auto-start disabled the resume effect runs
    the confirm callback: the pending flag is cleared and [createFusion]
    runs, with nothing left to stop.  With auto-start enabled, when
    [canGather] holds and the auto-merge has not fired in this pass, the
    auto-merge effect does the same and marks the auto-merge as fired. *)
Theorem scatter_finishes_while_pending (env : BeamEnv) (w : World) :
  storeConsistent (store w) ->
  warnIsScattering (view w) = true ->
  isScattering (store w) = false ->
  (gatherAutoStartAfterScatter (moduleStore w) = false ->
     commit env w = handleStartMergeConfirmation env (render w) w
     /\ commit env w
        = withStore (createFusion env false (store w)) (setWarnIsScattering false w))
  /\ (gatherAutoStartAfterScatter (moduleStore w) = true ->
      canGather (store w) = true ->
      hasAutoMerged (view w) = false ->
      commit env w
      = withStore (createFusion env true (store w))
          (setWarnIsScattering false (setHasAutoMerged true w))).
Proof.
  intros Hc Hwarn Hs. split.
  - intros Hauto.
    assert (Ha : shallAutoMerge (render w) = false)
      by (unfold shallAutoMerge, render; simpl; rewrite Hauto; reflexivity).
    assert (Hr : shallResumeMerge (render w) = true)
      by (unfold shallResumeMerge, render; simpl; rewrite Hauto, Hwarn, Hs; reflexivity).
    unfold commit, runEffects, resumeMergeEffect, autoMergeEffect.
    rewrite Ha, Hr. split; [reflexivity|].
    unfold handleStartMergeConfirmation, handleCreateFusion. simpl. rewrite Hs. simpl.
    rewrite (stopScatteringAll_quiet _ Hc Hs), Hauto. reflexivity.
  - intros Hauto Hg Hm.
    assert (Ha : shallAutoMerge (render w) = true)
      by (unfold shallAutoMerge, render; simpl; rewrite Hauto, Hg, Hs, Hm; reflexivity).
    assert (Hr : shallResumeMerge (render w) = false)
      by (unfold shallResumeMerge, render; simpl; rewrite Hauto, andb_false_r; reflexivity).
    unfold commit, runEffects, resumeMergeEffect, autoMergeEffect.
    rewrite Ha, Hr.
    unfold handleStartMergeConfirmation, handleCreateFusion. simpl. rewrite Hs. simpl.
    rewrite (stopScatteringAll_quiet _ Hc Hs), Hauto. reflexivity.
Qed.

Lemma scatter_finishes_while_pending_witness :
  commit Demo.env Demo.worldPendingManualFinished
  = withStore (createFusion Demo.env false (store Demo.worldPendingManualFinished))
      (setWarnIsScattering false Demo.worldPendingManualFinished)
  /\ commit Demo.env Demo.worldPendingAutoFinished
     = withStore (createFusion Demo.env true (store Demo.worldPendingAutoFinished))
         (setWarnIsScattering false (setHasAutoMerged true Demo.worldPendingAutoFinished)).
Proof.
  split.
  - assert (Hc : storeConsistent (store Demo.worldPendingManualFinished))
      by (split; reflexivity).
    destruct (scatter_finishes_while_pending Demo.env Demo.worldPendingManualFinished
                Hc eq_refl eq_refl) as [Hoff _].
    apply Hoff. reflexivity.
  - assert (Hc : storeConsistent (store Demo.worldPendingAutoFinished))
      by (split; reflexivity).
    destruct (scatter_finishes_while_pending Demo.env Demo.worldPendingAutoFinished
                Hc eq_refl eq_refl) as [_ Hon].
    apply Hon; reflexivity.
Defined.

(** C4: evaluation at the failing input.  Auto-start is enabled, the
    confirmation is pending and the last generating ray has completed, in a
    pass whose auto-merge has already fired: neither effect is due, so no
    fusion is created and the confirmation stays pending, although the
    scatter has finished while the dialog is up. *)
Lemma pending_survives_scatter_completion :
  gatherAutoStartAfterScatter (moduleStore Demo.worldPendingFinished) = true
  /\ warnIsScattering (view Demo.worldPendingFinished) = true
  /\ map rayStatus (rays (store Demo.worldPendingFinished)) = [RayDone; RayDone; RayDone]
  /\ isScattering (store Demo.worldPendingFinished) = false
  /\ canGather (store Demo.worldPendingFinished) = true
  /\ commit Demo.env Demo.worldPendingFinished = Demo.worldPendingFinished
  /\ warnIsScattering (view (commit Demo.env Demo.worldPendingFinished)) = true.
Proof. vm_compute. repeat split. Qed.

(** ** Accepting an output *)

Section Accept.

Variable env : BeamEnv.

Lemma handleCreateFusion_accepted c w :
  accepted (handleCreateFusion env c w) = accepted w.
Proof. unfold handleCreateFusion. destruct (c_isScattering c); reflexivity. Qed.

Lemma handleStartMergeConfirmation_accepted c w :
  accepted (handleStartMergeConfirmation env c w) = accepted w.
Proof.
  unfold handleStartMergeConfirmation. rewrite handleCreateFusion_accepted. reflexivity.
Qed.

Lemma commit_accepted w : accepted (commit env w) = accepted w.
Proof.
  unfold commit, runEffects, resumeMergeEffect, autoMergeEffect.
  destruct (shallResumeMerge (render w)), (shallAutoMerge (render w));
    rewrite ?handleStartMergeConfirmation_accepted; reflexivity.
Qed.

Lemma handleFusionUse_cases id w :
  handleFusionUse id w = w
  \/ exists cb f m,
       findFusion id (store w) = Some f /\ outputDMessage f = Some m
       /\ fragments m <> [] /\ onSuccessCallback (store w) = Some cb
       /\ handleFusionUse id w = invokeSuccess cb m w.
Proof.
  unfold handleFusionUse.
  destruct (findFusion id (store w)) as [f|]; [|left; reflexivity].
  destruct (outputDMessage f) as [m|] eqn:Hm; [|left; reflexivity].
  destruct (fragments m) as [|x xs] eqn:Hx; [left; reflexivity|].
  destruct (onSuccessCallback (store w)) as [cb|]; [|left; reflexivity].
  right. exists cb, f, m. repeat split; try assumption. congruence.
Qed.

Lemma handleRaysOperation_use_cases w :
  handleRaysOperation env OpUse w = w
  \/ exists cb,
       allFragments w <> [] /\ onSuccessCallback (store w) = Some cb
       /\ handleRaysOperation env OpUse w
          = invokeSuccess cb (mkDMessage (allFragments w)) w.
Proof.
  unfold handleRaysOperation. fold (allFragments w).
  destruct (allFragments w) as [|x xs]; [left; reflexivity|].
  destruct (onSuccessCallback (store w)) as [cb|]; [|left; reflexivity].
  right. exists cb. repeat split. discriminate.
Qed.

Lemma handleFusionCopyToClipboard_accepted id w :
  accepted (handleFusionCopyToClipboard env id w) = accepted w.
Proof.
  unfold handleFusionCopyToClipboard.
  destruct (findFusion id (store w)) as [f|]; [|reflexivity].
  destruct (outputDMessage f) as [m|]; [|reflexivity].
  destruct (fragments m); reflexivity.
Qed.

Lemma handle_accepted_other e c w :
  isAcceptEvent e = false -> accepted (handle env e c w) = accepted w.
Proof.
  destruct e; simpl; intros He; try discriminate; try reflexivity.
  - destruct operation; [|discriminate].
    unfold handleRaysOperation. destruct (flat_map _ _); reflexivity.
  - apply handleCreateFusion_accepted.
  - destruct (c_warnIsScattering c);
      [apply handleStartMergeConfirmation_accepted | reflexivity].
  - destruct (c_warnIsScattering c); reflexivity.
  - apply handleFusionCopyToClipboard_accepted.
Qed.

Lemma handle_accepted_nonEmpty e c w :
  Forall nonEmptyOutput (accepted w) ->
  Forall nonEmptyOutput (accepted (handle env e c w)).
Proof.
  intros Hw. destruct (isAcceptEvent e) eqn:He.
  - destruct e; try discriminate.
    + destruct operation; try discriminate. simpl.
      destruct (handleRaysOperation_use_cases w) as [-> | [cb [Hne [_ ->]]]];
        [assumption|].
      simpl. constructor; [exact Hne | assumption].
    + simpl. destruct (handleFusionUse_cases id w)
        as [-> | [cb [f [m [_ [_ [Hne [_ ->]]]]]]]]; [assumption|].
      simpl. constructor; [exact Hne | assumption].
  - rewrite handle_accepted_other; assumption.
Qed.

End Accept.

(** C9 (as amended): accepting a fusion's output, or the rays' output (the
    'use' operation, which covers all rays at once), leaves the store (every
    ray and every fusion) and the view unchanged; it invokes the success
    callback at most once, with that fusion's output message, respectively
    with a new message holding the fragments of all rays in ray order, and
    does invoke it when that output is not empty and a callback is
    registered.  No effect and no other event invokes the callback. *)
Theorem accept_is_read_only (env : BeamEnv) :
  (forall id w,
      store (handleFusionUse id w) = store w
      /\ view (handleFusionUse id w) = view w
      /\ (accepted (handleFusionUse id w) = accepted w
          \/ exists cb f m,
               findFusion id (store w) = Some f /\ outputDMessage f = Some m
               /\ onSuccessCallback (store w) = Some cb
               /\ accepted (handleFusionUse id w) = (cb, m) :: accepted w))
  /\ (forall id w f m cb,
         findFusion id (store w) = Some f -> outputDMessage f = Some m ->
         fragments m <> [] -> onSuccessCallback (store w) = Some cb ->
         accepted (handleFusionUse id w) = (cb, m) :: accepted w)
  /\ (forall w,
         store (handleRaysOperation env OpUse w) = store w
         /\ view (handleRaysOperation env OpUse w) = view w
         /\ (accepted (handleRaysOperation env OpUse w) = accepted w
             \/ exists cb,
                  onSuccessCallback (store w) = Some cb
                  /\ accepted (handleRaysOperation env OpUse w)
                     = (cb, mkDMessage (allFragments w)) :: accepted w))
  /\ (forall w cb,
         allFragments w <> [] -> onSuccessCallback (store w) = Some cb ->
         accepted (handleRaysOperation env OpUse w)
         = (cb, mkDMessage (allFragments w)) :: accepted w)
  /\ (forall w, accepted (commit env w) = accepted w)
  /\ (forall e w, isAcceptEvent e = false -> accepted (dispatch env e w) = accepted w).
Proof.
  split; [|split; [|split; [|split; [|split]]]].
  - intros id w.
    destruct (handleFusionUse_cases id w) as [-> | [cb [f [m [Hf [Hm [_ [Hcb ->]]]]]]]].
    + auto.
    + simpl. repeat split. right. exists cb, f, m. auto.
  - intros id w f m cb Hf Hm Hne Hcb. unfold handleFusionUse.
    rewrite Hf, Hm, Hcb. destruct (fragments m); [congruence | reflexivity].
  - intros w.
    destruct (handleRaysOperation_use_cases env w) as [-> | [cb [_ [Hcb ->]]]].
    + auto.
    + simpl. repeat split. right. exists cb. auto.
  - intros w cb Hne Hcb. unfold handleRaysOperation. fold (allFragments w).
    rewrite Hcb. destruct (allFragments w); [congruence | reflexivity].
  - apply commit_accepted.
  - intros e w He. unfold dispatch.
    rewrite commit_accepted. apply handle_accepted_other. exact He.
Qed.

Lemma accept_is_read_only_witness :
  accepted (handleFusionUse "id3" Demo.worldFused)
  = (7, mkDMessage ["merged"%string]) :: accepted Demo.worldFused
  /\ accepted (handleRaysOperation Demo.env OpUse Demo.worldFused)
     = (7, mkDMessage (allFragments Demo.worldFused)) :: accepted Demo.worldFused
  /\ accepted (dispatch Demo.env EvMergeConfirm Demo.worldPending)
     = accepted Demo.worldPending.
Proof.
  destruct (accept_is_read_only Demo.env) as [_ [Hfus [_ [Hrays [_ Hother]]]]].
  split; [|split].
  - apply (Hfus "id3"%string Demo.worldFused
             (mkBFusion "id3" "fuse" (Some "gpt"%string) "" StageDone
                (Some (mkDMessage ["merged"%string])) None
                [mkDMessage ["alpha"%string]; mkDMessage ["beta"%string];
                 mkDMessage ["gamma"%string]])).
    + vm_compute. reflexivity.
    + reflexivity.
    + discriminate.
    + vm_compute. reflexivity.
  - apply Hrays.
    + vm_compute. discriminate.
    + vm_compute. reflexivity.
  - apply Hother. reflexivity.
Defined.

(** C9 (as stated) fails.  With three done rays, accepting the rays' output
    invokes the callback with a message that is the output message of none
    of the rays; and accepting a fusion whose output message has no
    fragment yet does not invoke the callback, although the fusion exists
    and a callback is registered. *)
Lemma accept_passes_no_single_ray_message :
  map message (rays (store Demo.worldFused))
  = [mkDMessage ["alpha"%string]; mkDMessage ["beta"%string];
     mkDMessage ["gamma"%string]]
  /\ accepted Demo.worldFused = []
  /\ accepted (handleRaysOperation Demo.env OpUse Demo.worldFused)
     = [(7, mkDMessage ["alpha"%string; "beta"%string; "gamma"%string])]
  /\ Forall (fun ray => message ray
                        <> mkDMessage ["alpha"%string; "beta"%string; "gamma"%string])
            (rays (store Demo.worldFused))
  /\ option_map outputDMessage (findFusion "id3" (store Demo.worldMerged))
     = Some (Some (mkDMessage []))
  /\ onSuccessCallback (store Demo.worldMerged) = Some 7
  /\ accepted (handleFusionUse "id3" Demo.worldMerged) = accepted Demo.worldMerged.
Proof.
  vm_compute. repeat split. repeat constructor; discriminate.
Qed.

(** C10: the success callback never receives an empty output.  Accepting a
    fusion changes nothing unless that fusion has an output message with at
    least one fragment and a callback is registered; an operation on all
    rays changes nothing unless the rays have at least one fragment between
    them; and every recorded invocation carries at least one fragment. *)
Theorem accept_requires_output (env : BeamEnv) :
  (forall id w,
      fusionOutputFragments (findFusion id (store w)) = []
      \/ onSuccessCallback (store w) = None ->
      handleFusionUse id w = w)
  /\ (forall operation w,
         allFragments w = [] -> handleRaysOperation env operation w = w)
  /\ (forall e w,
         Forall nonEmptyOutput (accepted w) ->
         Forall nonEmptyOutput (accepted (dispatch env e w))).
Proof.
  split; [|split].
  - intros id w H. unfold handleFusionUse, fusionOutputFragments in *.
    destruct (findFusion id (store w)) as [f|]; [|reflexivity].
    destruct (outputDMessage f) as [m|]; [|reflexivity].
    destruct (fragments m); [reflexivity|].
    destruct H as [H | H]; [discriminate|]. rewrite H. reflexivity.
  - intros operation w H. unfold handleRaysOperation. fold (allFragments w).
    rewrite H. reflexivity.
  - intros e w H. unfold dispatch. rewrite commit_accepted.
    apply handle_accepted_nonEmpty. exact H.
Qed.

Lemma accept_requires_output_witness :
  handleFusionUse "id3" Demo.worldMerged = Demo.worldMerged
  /\ handleRaysOperation Demo.env OpUse (Demo.mount None true) = Demo.mount None true
  /\ Forall nonEmptyOutput
       (accepted (dispatch Demo.env (EvFusionUse "id3") Demo.worldFused)).
Proof.
  destruct (accept_requires_output Demo.env) as [Hfus [Hrays Hinv]].
  split; [|split].
  - apply Hfus. left. vm_compute. reflexivity.
  - apply Hrays. vm_compute. reflexivity.
  - apply Hinv. vm_compute. constructor.
Defined.

(** ** Resizing the ray set *)

Lemma length_freshRays env supply k : length (freshRays env supply k) = k.
Proof. unfold freshRays. rewrite length_map, length_seq. reflexivity. Qed.

Lemma nth_error_freshRays env supply k i :
  i < k ->
  nth_error (freshRays env supply k) i = Some (createBRay (freshId env (supply + i))).
Proof.
  intros Hi. unfold freshRays.
  rewrite nth_error_map, nth_error_seq.
  destruct (Nat.ltb_spec i k); [reflexivity | lia].
Qed.

Lemma clampRayCount_range env n : clampRayCount env n <= maxRayCount env.
Proof. unfold clampRayCount. lia. Qed.

Lemma setRayCount_rays env n s :
  rays (setRayCount env n s)
  = firstn (clampRayCount env n) (rays s)
    ++ freshRays env (idSupply s) (clampRayCount env n - length (rays s)).
Proof. reflexivity. Qed.

Lemma setRayCount_new_ray env n s i r :
  length (rays s) <= i ->
  nth_error (rays (setRayCount env n s)) i = Some r ->
  r = createBRay (freshId env (idSupply s + (i - length (rays s)))).
Proof.
  rewrite setRayCount_rays. set (t := clampRayCount env n). intros Hi Hr.
  assert (Hlt : i < length (firstn t (rays s)
                            ++ freshRays env (idSupply s) (t - length (rays s))))
    by (apply nth_error_Some; congruence).
  rewrite length_app, length_firstn, length_freshRays in Hlt.
  rewrite nth_error_app2 in Hr by (rewrite length_firstn; lia).
  rewrite length_firstn in Hr.
  replace (i - Nat.min t (length (rays s))) with (i - length (rays s)) in Hr by lia.
  rewrite nth_error_freshRays in Hr by lia.
  congruence.
Qed.

(** C7: [setRayCount n] leaves exactly [n] rays for [n] between 0 and the
    configured maximum, and clamps any other [n] into that range.  The first
    [min n (previous count)] rays are the previous ones, untouched; every
    ray beyond the previous count is a new idle ray; and every dropped
    (trailing) ray that was generating has its job cancelled. *)
Theorem setRayCount_resizes (env : BeamEnv) (n : Z) (s : BeamStore) :
  length (rays (setRayCount env n s)) = clampRayCount env n
  /\ clampRayCount env n <= maxRayCount env
  /\ ((0 <= n <= Z.of_nat (maxRayCount env))%Z -> clampRayCount env n = Z.to_nat n)
  /\ ((n < 0)%Z -> clampRayCount env n = 0)
  /\ ((Z.of_nat (maxRayCount env) < n)%Z -> clampRayCount env n = maxRayCount env)
  /\ firstn (Nat.min (clampRayCount env n) (length (rays s))) (rays (setRayCount env n s))
     = firstn (Nat.min (clampRayCount env n) (length (rays s))) (rays s)
  /\ (forall i r,
         length (rays s) <= i ->
         nth_error (rays (setRayCount env n s)) i = Some r ->
         rayStatus r = RayIdle /\ message r = emptyMessage)
  /\ (forall r,
         In r (skipn (clampRayCount env n) (rays s)) ->
         rayStatus r = RayGenerating ->
         In (rayId r) (jobsCancelled (setRayCount env n s)))
  /\ storeConsistent (setRayCount env n s).
Proof.
  split; [|split; [|split; [|split; [|split; [|split; [|split; [|split]]]]]]].
  - rewrite setRayCount_rays, length_app, length_firstn, length_freshRays. lia.
  - apply clampRayCount_range.
  - unfold clampRayCount. lia.
  - unfold clampRayCount. lia.
  - unfold clampRayCount. lia.
  - rewrite setRayCount_rays, firstn_app, length_firstn.
    rewrite Nat.sub_diag, firstn_O, app_nil_r, firstn_firstn.
    f_equal. lia.
  - intros i r Hi Hr. rewrite (setRayCount_new_ray env n s i r Hi Hr).
    split; reflexivity.
  - intros r Hin Hgen. unfold setRayCount; simpl. apply in_or_app. right.
    unfold generatingIds. apply in_map. apply filter_In. split; [assumption|].
    unfold rayIsGenerating. rewrite Hgen. reflexivity.
  - apply withRays_consistent.
Qed.

(** Four rays, the third generating, are reduced to two: the two leading
    rays are kept as they are and the job of the third is cancelled. *)
Lemma setRayCount_resizes_witness :
  clampRayCount Demo.env 2 = Z.to_nat 2
  /\ clampRayCount Demo.env (-3) = 0
  /\ clampRayCount Demo.env 50 = maxRayCount Demo.env
  /\ (rayStatus (createBRay "id4") = RayIdle /\ message (createBRay "id4") = emptyMessage)
  /\ In (rayId (rayStart (createBRay "id2")))
        (jobsCancelled (setRayCount Demo.env 2 (store Demo.worldFourRays))).
Proof.
  destruct (setRayCount_resizes Demo.env 2 (store Demo.worldFourRays))
    as [_ [_ [Hin [_ [_ [_ [_ [Hcancel _]]]]]]]].
  destruct (setRayCount_resizes Demo.env (-3) (store Demo.worldFourRays))
    as [_ [_ [_ [Hneg _]]]].
  destruct (setRayCount_resizes Demo.env 50 (store Demo.worldFourRays))
    as [_ [_ [_ [_ [Hbig _]]]]].
  destruct (setRayCount_resizes Demo.env 4 (store Demo.worldMerged))
    as [_ [_ [_ [_ [_ [_ [Hnew _]]]]]]].
  split; [|split; [|split; [|split]]].
  - apply Hin. vm_compute. split; discriminate.
  - apply Hneg. reflexivity.
  - apply Hbig. reflexivity.
  - apply (Hnew 3).
    + vm_compute. lia.
    + vm_compute. reflexivity.
  - apply Hcancel.
    + vm_compute. left. reflexivity.
    + reflexivity.
Defined.

(** ** Cancellation *)

Lemma rayApplyJobEvent_stopped ev r :
  rayStatus r = RayStopped -> rayApplyJobEvent ev r = r.
Proof. unfold rayApplyJobEvent, rayIsGenerating. intros ->. reflexivity. Qed.

Lemma rayApplyJobEvents_stopped evs : forall r,
  rayStatus r = RayStopped ->
  fold_left (fun acc ev => rayApplyJobEvent ev acc) evs r = r.
Proof.
  induction evs as [|ev evs IH]; intros r Hr; simpl; [reflexivity|].
  rewrite rayApplyJobEvent_stopped by assumption. apply IH. assumption.
Qed.

Lemma rayCancel_generating r :
  rayStatus r = RayGenerating -> rayCancel r = setRayStatus RayStopped r.
Proof. unfold rayCancel, rayIsGenerating. intros ->. reflexivity. Qed.

Lemma rayJobEvents_stopped evs : forall s i r,
  nth_error (rays s) i = Some r ->
  rayStatus r = RayStopped ->
  nth_error (rays (rayJobEvents evs s)) i = Some r.
Proof.
  unfold rayJobEvents.
  induction evs as [|[id ev] evs IH]; intros s i r Hi Hr; simpl; [assumption|].
  apply IH; [|assumption].
  unfold rayJobEvent; simpl. rewrite nth_error_map, Hi. simpl.
  unfold onRay. destruct (String.eqb (rayId r) id); [|reflexivity].
  rewrite rayApplyJobEvent_stopped by assumption. reflexivity.
Qed.

Lemma fusionApplyJobEvent_stopped ev f :
  stage f = StageStopped -> fusionApplyJobEvent ev f = f.
Proof. unfold fusionApplyJobEvent, fusionIsFusing. intros ->. reflexivity. Qed.

Lemma fusionApplyJobEvents_stopped evs : forall f,
  stage f = StageStopped ->
  fold_left (fun acc ev => fusionApplyJobEvent ev acc) evs f = f.
Proof.
  induction evs as [|ev evs IH]; intros f Hf; simpl; [reflexivity|].
  rewrite fusionApplyJobEvent_stopped by assumption. apply IH. assumption.
Qed.

Lemma fusionJobEvents_stopped evs : forall s i f,
  nth_error (fusions s) i = Some f ->
  stage f = StageStopped ->
  nth_error (fusions (fusionJobEvents evs s)) i = Some f.
Proof.
  unfold fusionJobEvents.
  induction evs as [|[id ev] evs IH]; intros s i f Hi Hf; simpl; [assumption|].
  apply IH; [|assumption].
  unfold fusionJobEvent; simpl. rewrite nth_error_map, Hi. simpl.
  unfold onFusion. destruct (String.eqb (fusionId f) id); [|reflexivity].
  rewrite fusionApplyJobEvent_stopped by assumption. reflexivity.
Qed.

Lemma toggleFusion_fusing rs f :
  stage f = StageFusing ->
  toggleFusion rs f
  = mkBFusion (fusionId f) (factoryId f) (llmId f) (instructions f)
      StageStopped (outputDMessage f) (errorText f) (fusionInput f).
Proof.
  unfold toggleFusion, fusionCancel, fusionIsFusing. intros ->. reflexivity.
Qed.

(** C8: cancelling a generating ray, by [stopScatteringAll] or on its own,
    leaves it [stopped] with its output and error text as they were, and it
    stays so whatever job events arrive afterwards (a late delta, [done] or
    [error]); the same holds for a fusing fusion cancelled through
    [toggleFusionGathering]. *)
Theorem cancel_yields_stopped :
  (forall s i r evs,
      nth_error (rays s) i = Some r ->
      rayStatus r = RayGenerating ->
      exists r',
        nth_error (rays (rayJobEvents evs (stopScatteringAll s))) i = Some r'
        /\ rayStatus r' = RayStopped
        /\ message r' = message r
        /\ rayErrorText r' = rayErrorText r)
  /\ (forall s i r evs,
         nth_error (rays s) i = Some r ->
         rayStatus r = RayGenerating ->
         exists r',
           nth_error (rays (rayJobEvents evs (rayStop (rayId r) s))) i = Some r'
           /\ rayStatus r' = RayStopped
           /\ message r' = message r
           /\ rayErrorText r' = rayErrorText r)
  /\ (forall s i f evs,
         nth_error (fusions s) i = Some f ->
         stage f = StageFusing ->
         exists f',
           nth_error (fusions (fusionJobEvents evs
                                 (toggleFusionGathering (fusionId f) s))) i = Some f'
           /\ stage f' = StageStopped
           /\ outputDMessage f' = outputDMessage f
           /\ errorText f' = errorText f).
Proof.
  split; [|split].
  - intros s i r evs Hi Hr. exists (setRayStatus RayStopped r).
    split; [|repeat split].
    apply rayJobEvents_stopped; [|reflexivity].
    unfold stopScatteringAll; simpl.
    rewrite nth_error_map, Hi. simpl. rewrite rayCancel_generating by assumption.
    reflexivity.
  - intros s i r evs Hi Hr. exists (setRayStatus RayStopped r).
    split; [|repeat split].
    apply rayJobEvents_stopped; [|reflexivity].
    unfold rayStop; simpl.
    rewrite nth_error_map, Hi. simpl. unfold onRay. rewrite String.eqb_refl.
    rewrite rayCancel_generating by assumption. reflexivity.
  - intros s i f evs Hi Hf.
    exists (mkBFusion (fusionId f) (factoryId f) (llmId f) (instructions f)
              StageStopped (outputDMessage f) (errorText f) (fusionInput f)).
    split; [|repeat split].
    apply fusionJobEvents_stopped; [|reflexivity].
    unfold toggleFusionGathering; simpl.
    rewrite nth_error_map, Hi. simpl. unfold onFusion. rewrite String.eqb_refl.
    rewrite toggleFusion_fusing by assumption. reflexivity.
Qed.

(** Ray [id2] is cancelled while its last chunk and its [done] are still on
    their way; the fusion [id3] is cancelled just before it reports an
    error. *)
Lemma cancel_yields_stopped_witness :
  (exists r',
      nth_error (rays (rayJobEvents [("id2"%string, JobDelta "late"%string);
                                     ("id2"%string, JobDone)]
                         (stopScatteringAll (store Demo.worldPending)))) 2 = Some r'
      /\ rayStatus r' = RayStopped)
  /\ (exists f',
         nth_error (fusions (fusionJobEvents [("id3"%string, JobError "late"%string)]
                               (toggleFusionGathering "id3"
                                  (store Demo.worldMerged)))) 0 = Some f'
         /\ stage f' = StageStopped).
Proof.
  destruct cancel_yields_stopped as [Hall [_ Hfus]].
  split.
  - destruct (Hall (store Demo.worldPending) 2
                (rayStart (createBRay "id2"))
                [("id2"%string, JobDelta "late"%string); ("id2"%string, JobDone)])
      as [r' [Hr' [Hst _]]]; [vm_compute; reflexivity | reflexivity |].
    exists r'. split; assumption.
  - destruct (Hfus (store Demo.worldMerged) 0
                (fusionStart (rays (store Demo.worldMerged))
                   (mkBFusion "id3" "fuse" (Some "gpt"%string) "" StageIdle None None []))
                [("id3"%string, JobError "late"%string)])
      as [f' [Hf' [Hst _]]]; [vm_compute; reflexivity | reflexivity |].
    exists f'. split; assumption.
Defined.

(** ** More on the view: the dialog, the effects and the copy handlers *)

Lemma commit_warnIsScattering (env : BeamEnv) (w : World) :
  warnIsScattering (view (commit env w))
  = warnIsScattering (view w)
    && negb (shallAutoMerge (render w)) && negb (shallResumeMerge (render w)).
Proof.
  unfold commit, runEffects, resumeMergeEffect, autoMergeEffect.
  destruct (shallAutoMerge (render w)) eqn:Ha.
  - assert (Hs : c_isScattering (render w) = false).
    { unfold shallAutoMerge in Ha.
      apply andb_prop in Ha as [Ha _]. apply andb_prop in Ha as [_ Hs].
      apply negb_true_iff in Hs. exact Hs. }
    destruct (shallResumeMerge (render w));
      unfold handleStartMergeConfirmation, handleCreateFusion; rewrite Hs; simpl;
      rewrite ?andb_false_r; reflexivity.
  - destruct (shallResumeMerge (render w)) eqn:Hr.
    + assert (Hs : c_isScattering (render w) = false).
      { unfold shallResumeMerge in Hr.
        apply andb_prop in Hr as [Hr _]. apply andb_prop in Hr as [_ Hs].
        apply negb_true_iff in Hs. exact Hs. }
      unfold handleStartMergeConfirmation, handleCreateFusion; rewrite Hs; simpl.
      rewrite andb_false_r. reflexivity.
    + simpl. rewrite !andb_true_r. reflexivity.
Qed.

Lemma handleRaysOperation_view (env : BeamEnv) op w :
  view (handleRaysOperation env op w) = view w.
Proof.
  unfold handleRaysOperation.
  destruct (flat_map _ _); [reflexivity|].
  destruct op; [reflexivity|]. destruct (onSuccessCallback (store w)); reflexivity.
Qed.

Lemma handle_warn_unraised (env : BeamEnv) e w :
  warnIsScattering (view w) = false ->
  e <> EvAddFusion ->
  warnIsScattering (view (handle env e (render w) w)) = false.
Proof.
  intros Hw He. destruct e; simpl; try exact Hw; try rewrite Hw; try exact Hw.
  - rewrite handleRaysOperation_view. exact Hw.
  - congruence.
  - rewrite handleFusionCopyToClipboard_view. exact Hw.
  - rewrite handleFusionUse_view. exact Hw.
Qed.

(** X1: the confirmation dialog opens exactly when the user asks for a
    fusion while the render she acts on is scattering: from a world without
    a pending confirmation, an event leaves one pending if and only if it
    is the add-fusion request and [isScattering] holds; the store is then
    untouched. *)
Theorem dialog_opens_iff_requested_while_scattering (env : BeamEnv) (e : Event)
    (w : World) :
  warnIsScattering (view w) = false ->
  (warnIsScattering (view (dispatch env e w)) = true
   <-> (e = EvAddFusion /\ isScattering (store w) = true))
  /\ (warnIsScattering (view (dispatch env e w)) = true ->
      store (dispatch env e w) = store w).
Proof.
  intros Hw.
  assert (Hadd : isScattering (store w) = true ->
                 dispatch env EvAddFusion w = setWarnIsScattering true w).
  { intros Hs. unfold dispatch. simpl. unfold handleCreateFusion. simpl. rewrite Hs.
    unfold commit, runEffects, resumeMergeEffect, autoMergeEffect,
      shallAutoMerge, shallResumeMerge; simpl.
    rewrite Hs. simpl. rewrite !andb_false_r. reflexivity. }
  assert (Hiff : warnIsScattering (view (dispatch env e w)) = true
                 -> e = EvAddFusion /\ isScattering (store w) = true).
  { unfold dispatch. rewrite commit_warnIsScattering. intros H.
    apply andb_prop in H as [H _]. apply andb_prop in H as [H _].
    assert (He : e = EvAddFusion).
    { destruct e; try reflexivity;
        rewrite handle_warn_unraised in H by (assumption || discriminate);
        discriminate. }
    split; [exact He|]. subst e. simpl in H. unfold handleCreateFusion in H.
    simpl in H. destruct (isScattering (store w)); [reflexivity|].
    simpl in H. congruence. }
  split; [split|].
  - exact Hiff.
  - intros [-> Hs]. rewrite (Hadd Hs). reflexivity.
  - intros H. destruct (Hiff H) as [-> Hs]. rewrite (Hadd Hs). reflexivity.
Qed.

Lemma dialog_opens_iff_requested_while_scattering_witness :
  warnIsScattering
    (view (dispatch Demo.env EvAddFusion
             (dispatch Demo.env (EvStoreUpdate (rayRestart "id2")) Demo.worldMerged)))
  = true.
Proof.
  apply (dialog_opens_iff_requested_while_scattering Demo.env EvAddFusion
           (dispatch Demo.env (EvStoreUpdate (rayRestart "id2")) Demo.worldMerged)
           eq_refl).
  split; [reflexivity | vm_compute; reflexivity].
Defined.

(** X2: the effects settle in one pass.  After any event the committed world
    is a fixed point of [commit]: the render that follows runs no effect, so
    the two effects cannot feed each other; and no render has both effects
    due. *)
Theorem effects_settle_in_one_pass (env : BeamEnv) :
  (forall e w, commit env (dispatch env e w) = dispatch env e w)
  /\ (forall e w,
         shallAutoMerge (render (dispatch env e w)) = false
         /\ shallResumeMerge (render (dispatch env e w)) = false)
  /\ (forall c, shallAutoMerge c && shallResumeMerge c = false).
Proof.
  split; [|split].
  - intros e w. unfold dispatch. apply commit_idempotent.
  - intros e w. unfold dispatch. apply commit_quiescent.
  - intros c. unfold shallAutoMerge, shallResumeMerge.
    destruct (c_gatherAutoStartAfterScatter c); simpl;
      rewrite ?andb_false_r; reflexivity.
Qed.

(** X3: copying never accepts and never changes the session.  Copying all
    rays or one fusion leaves the store, the view and the record of callback
    invocations as they are; it writes the clipboard once, under the label
    "All Beams" (rays, joined with the rule separator) or "Merge" (fusion),
    when there is at least one fragment to copy, and not at all otherwise. *)
Theorem copy_is_read_only (env : BeamEnv) (w : World) (id : string) :
  (store (handleRaysOperation env OpCopy w) = store w
   /\ view (handleRaysOperation env OpCopy w) = view w
   /\ accepted (handleRaysOperation env OpCopy w) = accepted w
   /\ clipboard (handleRaysOperation env OpCopy w)
      = match allFragments w with
        | [] => clipboard w
        | _ :: _ =>
            (messageFragmentsReduceText env (allFragments w) (Some raysSeparator),
             "All Beams"%string) :: clipboard w
        end)
  /\ (store (handleFusionCopyToClipboard env id w) = store w
      /\ view (handleFusionCopyToClipboard env id w) = view w
      /\ accepted (handleFusionCopyToClipboard env id w) = accepted w
      /\ clipboard (handleFusionCopyToClipboard env id w)
         = match fusionOutputFragments (findFusion id (store w)) with
           | [] => clipboard w
           | _ :: _ =>
               (messageFragmentsReduceText env
                  (fusionOutputFragments (findFusion id (store w))) None,
                "Merge"%string) :: clipboard w
           end).
Proof.
  split.
  - unfold handleRaysOperation. fold (allFragments w).
    destruct (allFragments w); repeat split.
  - unfold handleFusionCopyToClipboard, fusionOutputFragments.
    destruct (findFusion id (store w)) as [f|]; [|repeat split].
    destruct (outputDMessage f) as [m|]; [|repeat split].
    destruct (fragments m); repeat split.
Qed.

(** X4: whatever can be accepted can be copied.  If accepting a fusion (or
    all rays) invokes the success callback, then copying it in the same
    world writes the clipboard; with no callback registered, accepting
    does nothing. *)
Theorem use_implies_copy (env : BeamEnv) (w : World) (id : string) :
  (accepted (handleFusionUse id w) <> accepted w ->
   clipboard (handleFusionCopyToClipboard env id w) <> clipboard w)
  /\ (accepted (handleRaysOperation env OpUse w) <> accepted w ->
      clipboard (handleRaysOperation env OpCopy w) <> clipboard w)
  /\ (onSuccessCallback (store w) = None ->
      handleFusionUse id w = w /\ handleRaysOperation env OpUse w = w).
Proof.
  assert (Hcons : forall (x : string * string) l, x :: l <> l).
  { intros x l H. apply (f_equal (@length _)) in H. simpl in H. lia. }
  split; [|split].
  - unfold handleFusionUse, handleFusionCopyToClipboard.
    destruct (findFusion id (store w)) as [f|]; [|congruence].
    destruct (outputDMessage f) as [m|]; [|congruence].
    destruct (fragments m); [congruence|].
    intros _. simpl. apply Hcons.
  - unfold handleRaysOperation.
    destruct (flat_map _ _); [congruence|].
    intros _. simpl. apply Hcons.
  - intros Hcb. unfold handleFusionUse, handleRaysOperation. rewrite Hcb.
    split.
    + destruct (findFusion id (store w)) as [f|]; [|reflexivity].
      destruct (outputDMessage f) as [m|]; [|reflexivity].
      destruct (fragments m); reflexivity.
    + destruct (flat_map _ _); reflexivity.
Qed.

Lemma use_implies_copy_witness :
  clipboard (handleFusionCopyToClipboard Demo.env "id3" Demo.worldFused)
  <> clipboard Demo.worldFused
  /\ clipboard (handleRaysOperation Demo.env OpCopy Demo.worldFused)
     <> clipboard Demo.worldFused.
Proof.
  destruct (use_implies_copy Demo.env Demo.worldFused "id3") as [Hf [Hr _]].
  split.
  - apply Hf. vm_compute. discriminate.
  - apply Hr. vm_compute. discriminate.
Defined.

(** X5: the controls follow the scatter state.  In every render exactly one
    shortcut is live: Esc (stop) while scattering, Ctrl+Enter (start without
    restart) otherwise.  While scattering the start button is busy, the
    restart variant is off and the ray operations are hidden; the restart
    variant needs a ray that is not ready; and a render whose auto-merge is
    due shows the ray operations with the ready count. *)
Theorem controls_follow_scatter_state (isMobile : bool) (w : World) :
  BeamControls.enabledActions (render w)
  = [if isScattering (store w) then EvScatterStop else EvScatterStart false]
  /\ (isScattering (store w) = true ->
      BeamControls.startBusy (render w) = true
      /\ BeamControls.startRestart isMobile (render w) = false
      /\ BeamControls.showRaysOps (render w) = None)
  /\ (BeamControls.startRestart isMobile (render w) = true ->
      1 <= raysReady (store w) < length (rays (store w)))
  /\ (forall n, BeamControls.showRaysOps (render w) = Some n ->
                n = raysReady (store w) /\ 2 <= n /\ isScattering (store w) = false)
  /\ (shallAutoMerge (render w) = true ->
      BeamControls.showRaysOps (render w) = Some (raysReady (store w))).
Proof.
  unfold BeamControls.enabledActions, BeamControls.shortcuts,
    BeamControls.startBusy, BeamControls.startRestart, BeamControls.showRaysOps,
    shallAutoMerge, render;
    cbn [c_isScattering c_raysReady c_raysCount c_canGather c_hasAutoMerged
         c_gatherAutoStartAfterScatter c_warnIsScattering].
  rewrite length_map.
  split; [|split; [|split; [|split]]].
  - destruct (isScattering (store w)); reflexivity.
  - intros ->. rewrite andb_false_r. auto.
  - intros H. apply andb_prop in H as [H _]. apply andb_prop in H as [H H2].
    apply andb_prop in H as [_ H1].
    apply Nat.leb_le in H1. apply Nat.ltb_lt in H2. lia.
  - intros n. destruct (isScattering (store w)); cbn [orb]; [discriminate|].
    destruct (raysReady (store w) <? 2) eqn:E; [discriminate|].
    intros [= <-]. apply Nat.ltb_ge in E. auto.
  - intros H. apply andb_prop in H as [H _]. apply andb_prop in H as [H Hs].
    apply andb_prop in H as [_ Hg]. apply negb_true_iff in Hs. rewrite Hs.
    cbn [orb].
    unfold canGather in Hg. apply andb_prop in Hg as [Hg _].
    apply andb_prop in Hg as [Hg _]. apply Nat.leb_le in Hg.
    destruct (raysReady (store w) <? 2) eqn:E; [|reflexivity].
    apply Nat.ltb_lt in E. lia.
Qed.

Lemma controls_follow_scatter_state_witness :
  BeamControls.showRaysOps (render Demo.worldCustomReady) = Some 3
  /\ BeamControls.startRestart false (render Demo.worldPending) = false.
Proof.
  destruct (controls_follow_scatter_state false Demo.worldCustomReady)
    as [_ [_ [_ [_ Hauto]]]].
  destruct (controls_follow_scatter_state false Demo.worldPending)
    as [_ [Hbusy _]].
  split.
  - apply Hauto. reflexivity.
  - apply Hbusy. reflexivity.
Defined.

(** ** The fusion card's model selector *)

Section FusionCardFacts.

Variable env : BeamEnv.
Variable id : string.

Lemma commitCard_settled (c : FusionCard.Card) :
  (FusionCard.effectDep (FusionCard.cardState c)
   = Some (FusionCard.isFusing id (FusionCard.cardStore c)) ->
   FusionCard.isFusing id (FusionCard.cardStore c) = true ->
   FusionCard.showLlmSelector (FusionCard.cardState c) = false) ->
  FusionCard.effectDep (FusionCard.cardState (FusionCard.commitCard id c))
  = Some (FusionCard.isFusing id (FusionCard.cardStore c))
  /\ (FusionCard.isFusing id (FusionCard.cardStore c) = true ->
      FusionCard.showLlmSelector (FusionCard.cardState (FusionCard.commitCard id c))
      = false).
Proof.
  intros H. unfold FusionCard.commitCard, FusionCard.hideSelectorEffect. simpl.
  destruct (FusionCard.effectDep (FusionCard.cardState c)) as [seen|] eqn:Hd.
  - destruct (Bool.eqb seen (FusionCard.isFusing id (FusionCard.cardStore c))) eqn:E.
    + apply Bool.eqb_prop in E. subst seen. rewrite Hd. split; [reflexivity|].
      intros Hf. apply H; [reflexivity | exact Hf].
    + simpl. split; [reflexivity|]. intros ->. reflexivity.
  - simpl. split; [reflexivity|]. intros ->. reflexivity.
Qed.

Lemma stepCard_settled (e : FusionCard.CardEvent) (c : FusionCard.Card) :
  FusionCard.effectDep (FusionCard.cardState c)
  = Some (FusionCard.isFusing id (FusionCard.cardStore c)) ->
  (FusionCard.isFusing id (FusionCard.cardStore c) = true ->
   FusionCard.showLlmSelector (FusionCard.cardState c) = false) ->
  FusionCard.effectDep (FusionCard.cardState (FusionCard.stepCard env id e c))
  = Some (FusionCard.isFusing id (FusionCard.cardStore (FusionCard.stepCard env id e c)))
  /\ (FusionCard.isFusing id (FusionCard.cardStore (FusionCard.stepCard env id e c)) = true ->
      FusionCard.showLlmSelector (FusionCard.cardState (FusionCard.stepCard env id e c))
      = false).
Proof.
  intros Hd Hs. unfold FusionCard.stepCard.
  change (FusionCard.cardStore (FusionCard.commitCard id (FusionCard.handleCard env id e c)))
    with (FusionCard.cardStore (FusionCard.handleCard env id e c)).
  apply commitCard_settled.
  destruct e as [shiftKey | s]; simpl.
  - unfold FusionCard.iconClickable.
    destruct (FusionCard.isFusing id (FusionCard.cardStore c)) eqn:Hf.
    + rewrite andb_false_r. intros _ _. apply Hs. reflexivity.
    + destruct (FusionCard.rendersCard env id (FusionCard.cardStore c)); simpl;
        rewrite Hf; intros _ Habs; discriminate.
  - intros Hd' Hf. rewrite Hd in Hd'. injection Hd' as Heq.
    apply Hs. rewrite Heq. exact Hf.
Qed.

Lemma mountCard_settled (s : BeamStore) :
  FusionCard.effectDep (FusionCard.cardState (FusionCard.mountCard id s))
  = Some (FusionCard.isFusing id (FusionCard.cardStore (FusionCard.mountCard id s)))
  /\ (FusionCard.isFusing id (FusionCard.cardStore (FusionCard.mountCard id s)) = true ->
      FusionCard.showLlmSelector (FusionCard.cardState (FusionCard.mountCard id s))
      = false).
Proof.
  destruct (commitCard_settled
              (FusionCard.mkCard s (FusionCard.mkCardState false None)))
    as [H1 H2]; [simpl; discriminate|].
  split; [exact H1 | exact H2].
Qed.

Lemma runCard_settled (es : list FusionCard.CardEvent) : forall c,
  FusionCard.effectDep (FusionCard.cardState c)
  = Some (FusionCard.isFusing id (FusionCard.cardStore c)) ->
  (FusionCard.isFusing id (FusionCard.cardStore c) = true ->
   FusionCard.showLlmSelector (FusionCard.cardState c) = false) ->
  FusionCard.effectDep (FusionCard.cardState (FusionCard.runCard env id es c))
  = Some (FusionCard.isFusing id (FusionCard.cardStore (FusionCard.runCard env id es c)))
  /\ (FusionCard.isFusing id (FusionCard.cardStore (FusionCard.runCard env id es c)) = true ->
      FusionCard.showLlmSelector (FusionCard.cardState (FusionCard.runCard env id es c))
      = false).
Proof.
  induction es as [|e es IH]; intros c Hd Hs; [split; assumption|].
  simpl. destruct (stepCard_settled e c Hd Hs) as [Hd' Hs']. apply IH; assumption.
Qed.

Lemma stepCard_stays_closed (e : FusionCard.CardEvent) (c : FusionCard.Card) :
  e <> FusionCard.IconClick false ->
  FusionCard.showLlmSelector (FusionCard.cardState c) = false ->
  FusionCard.showLlmSelector (FusionCard.cardState (FusionCard.stepCard env id e c))
  = false.
Proof.
  intros He Hc.
  assert (Hcommit : forall c',
             FusionCard.showLlmSelector (FusionCard.cardState c') = false ->
             FusionCard.showLlmSelector
               (FusionCard.cardState (FusionCard.commitCard id c')) = false).
  { intros c' H. unfold FusionCard.commitCard, FusionCard.hideSelectorEffect. simpl.
    destruct (FusionCard.effectDep (FusionCard.cardState c')) as [seen|].
    - destruct (Bool.eqb seen _); [exact H|]. simpl.
      destruct (FusionCard.isFusing id (FusionCard.cardStore c')); [reflexivity | exact H].
    - simpl.
      destruct (FusionCard.isFusing id (FusionCard.cardStore c')); [reflexivity | exact H]. }
  unfold FusionCard.stepCard. apply Hcommit.
  destruct e as [[|] | s]; simpl.
  - destruct (FusionCard.iconClickable env id c); exact Hc.
  - congruence.
  - exact Hc.
Qed.

End FusionCardFacts.

(** X6: while its fusion is fusing, a fusion card keeps the model selector
    closed.  In every state the card reaches from its mount, through icon
    clicks and store changes in any order, a fusing fusion means that
    [showLlmSelector] is false; and whenever the selector is on screen the
    icon can be clicked to close it. *)
Theorem selector_closed_while_fusing (env : BeamEnv) (id : string) (s : BeamStore)
    (es : list FusionCard.CardEvent) :
  (FusionCard.isFusing id
     (FusionCard.cardStore (FusionCard.runCard env id es (FusionCard.mountCard id s)))
   = true ->
   FusionCard.showLlmSelector
     (FusionCard.cardState (FusionCard.runCard env id es (FusionCard.mountCard id s)))
   = false)
  /\ (FusionCard.llmSelectorShown env id
        (FusionCard.runCard env id es (FusionCard.mountCard id s)) = true ->
      FusionCard.iconClickable env id
        (FusionCard.runCard env id es (FusionCard.mountCard id s)) = true).
Proof.
  destruct (mountCard_settled id s) as [Hd Hs].
  destruct (runCard_settled env id es _ Hd Hs) as [_ Hs'].
  split; [exact Hs'|].
  unfold FusionCard.llmSelectorShown, FusionCard.iconClickable.
  intros H. apply andb_prop in H as [Hr H]. rewrite Hr. simpl.
  apply negb_true_iff in H. apply orb_false_iff in H as [H _]. rewrite H. reflexivity.
Qed.

(** The user opens the selector, then the fusion is restarted. *)
Lemma selector_closed_while_fusing_witness :
  FusionCard.showLlmSelector
    (FusionCard.cardState
       (FusionCard.runCard Demo.env "id3"
          [FusionCard.IconClick false; FusionCard.StoreChanged (store Demo.worldMerged)]
          (FusionCard.mountCard "id3" (store Demo.worldFused))))
  = false.
Proof.
  apply (selector_closed_while_fusing Demo.env "id3" (store Demo.worldFused)
           [FusionCard.IconClick false; FusionCard.StoreChanged (store Demo.worldMerged)]).
  vm_compute. reflexivity.
Defined.

(** X7: a run of the fusion closes the selector for good.  Once a store
    change makes the fusion fusing, the selector stays closed through every
    later store change and shift-click, also after the fusion has ended: only
    a plain click on the icon opens it again. *)
Theorem selector_stays_closed_after_fusing (env : BeamEnv) (id : string)
    (s s1 : BeamStore) (es later : list FusionCard.CardEvent) :
  FusionCard.isFusing id s1 = true ->
  Forall (fun e => e <> FusionCard.IconClick false) later ->
  FusionCard.showLlmSelector
    (FusionCard.cardState
       (FusionCard.runCard env id (FusionCard.StoreChanged s1 :: later)
          (FusionCard.runCard env id es (FusionCard.mountCard id s))))
  = false.
Proof.
  intros Hf Hlater.
  destruct (mountCard_settled id s) as [Hd Hs].
  destruct (runCard_settled env id es _ Hd Hs) as [Hd' Hs'].
  set (c := FusionCard.runCard env id es (FusionCard.mountCard id s)) in *.
  simpl.
  destruct (stepCard_settled env id (FusionCard.StoreChanged s1) c Hd' Hs') as [_ Hc].
  specialize (Hc Hf).
  generalize dependent (FusionCard.stepCard env id (FusionCard.StoreChanged s1) c).
  clear - Hlater.
  induction Hlater as [|e later He _ IH]; intros c Hc; [exact Hc|].
  simpl. apply IH. apply stepCard_stays_closed; assumption.
Qed.

(** The selector is open, the fusion is restarted and completes again. *)
Lemma selector_stays_closed_after_fusing_witness :
  FusionCard.showLlmSelector
    (FusionCard.cardState
       (FusionCard.runCard Demo.env "id3"
          [FusionCard.StoreChanged (store Demo.worldMerged);
           FusionCard.StoreChanged (store Demo.worldFused);
           FusionCard.IconClick true]
          (FusionCard.runCard Demo.env "id3" [FusionCard.IconClick false]
             (FusionCard.mountCard "id3" (store Demo.worldFused)))))
  = false.
Proof.
  apply (selector_stays_closed_after_fusing Demo.env "id3" (store Demo.worldFused)
           (store Demo.worldMerged) [FusionCard.IconClick false]).
  - vm_compute. reflexivity.
  - repeat constructor; discriminate.
Defined.

(** X8: icon clicks on a fusion card.  In every state reached from the
    mount, a shift-click changes nothing, two plain clicks return to the
    same state, and a plain click toggles the selector exactly when the icon
    is clickable (the card is rendered and its fusion is not fusing). *)
Theorem icon_click_toggles (env : BeamEnv) (id : string) (s : BeamStore)
    (es : list FusionCard.CardEvent) :
  FusionCard.stepCard env id (FusionCard.IconClick true)
    (FusionCard.runCard env id es (FusionCard.mountCard id s))
  = FusionCard.runCard env id es (FusionCard.mountCard id s)
  /\ FusionCard.runCard env id [FusionCard.IconClick false; FusionCard.IconClick false]
       (FusionCard.runCard env id es (FusionCard.mountCard id s))
     = FusionCard.runCard env id es (FusionCard.mountCard id s)
  /\ FusionCard.showLlmSelector
       (FusionCard.cardState
          (FusionCard.stepCard env id (FusionCard.IconClick false)
             (FusionCard.runCard env id es (FusionCard.mountCard id s))))
     = xorb (FusionCard.iconClickable env id
               (FusionCard.runCard env id es (FusionCard.mountCard id s)))
            (FusionCard.showLlmSelector
               (FusionCard.cardState
                  (FusionCard.runCard env id es (FusionCard.mountCard id s)))).
Proof.
  destruct (mountCard_settled id s) as [Hd Hs].
  destruct (runCard_settled env id es _ Hd Hs) as [Hd' _].
  set (c := FusionCard.runCard env id es (FusionCard.mountCard id s)) in *.
  clearbody c. clear - Hd'.
  destruct c as [st [show dep]].
  cbn [FusionCard.cardStore FusionCard.cardState FusionCard.effectDep] in Hd'.
  subst dep.
  unfold FusionCard.runCard, fold_left, FusionCard.stepCard, FusionCard.commitCard,
    FusionCard.handleCard, FusionCard.iconClickable.
  cbn [FusionCard.cardStore FusionCard.cardState].
  destruct (FusionCard.rendersCard env id st) eqn:Hr,
           (FusionCard.isFusing id st) eqn:Hf, show;
    do 3 (cbn; rewrite ?Hr, ?Hf); repeat split; reflexivity.
Qed.

(** ** The news page *)

Section AppNewsFacts.

Variable NewsItem : Type.

Lemma filterIdx_upto (last : nat) (l : list NewsItem) : forall k,
  AppNews.filterIdx (fun _ idx => idx <=? last) l k = firstn (S last - k) l.
Proof.
  induction l as [|x l IH]; intros k; cbn [AppNews.filterIdx].
  - rewrite firstn_nil. reflexivity.
  - rewrite IH. destruct (Nat.leb_spec k last).
    + replace (S last - k) with (S (S last - S k)) by lia. reflexivity.
    + replace (S last - S k) with 0 by lia. replace (S last - k) with 0 by lia.
      reflexivity.
Qed.

Lemma news_firstn (items : list NewsItem) (last : nat) :
  AppNews.news items last = firstn (S last) items.
Proof. unfold AppNews.news. rewrite filterIdx_upto. reflexivity. Qed.

Lemma length_news (items : list NewsItem) (last : nat) :
  length (AppNews.news items last) = Nat.min (S last) (length items).
Proof. rewrite news_firstn. apply length_firstn. Qed.

Lemma count_flatMapIdx (p : AppNews.Block NewsItem -> bool) (j : nat) :
  (forall x idx,
      length (filter p (AppNews.renderNewsItem x idx)) = if idx =? j then 1 else 0) ->
  forall l k,
    length (filter p (AppNews.flatMapIdx AppNews.renderNewsItem l k))
    = if (k <=? j) && (j <? k + length l) then 1 else 0.
Proof.
  intros Hp. induction l as [|x l IH]; intros k.
  - simpl. destruct (Nat.leb_spec k j), (Nat.ltb_spec j (k + 0)); simpl; lia.
  - cbn [AppNews.flatMapIdx]. rewrite filter_app, length_app, Hp, IH.
    cbn [length].
    destruct (Nat.eqb_spec k j), (Nat.leb_spec (S k) j), (Nat.leb_spec k j),
      (Nat.ltb_spec j (S k + length l)), (Nat.ltb_spec j (k + S (length l)));
      simpl; lia.
Qed.

Lemma count_cards_flatMapIdx (l : list NewsItem) : forall k,
  length (filter AppNews.isNewsCard (AppNews.flatMapIdx AppNews.renderNewsItem l k))
  = length l.
Proof.
  induction l as [|x l IH]; intros k; [reflexivity|].
  cbn [AppNews.flatMapIdx]. rewrite filter_app, length_app, IH.
  unfold AppNews.renderNewsItem.
  destruct (k =? 2), (k =? 3); reflexivity.
Qed.

Lemma tail_blocks_filter (p : AppNews.Block NewsItem -> bool) (isMobile expandable : bool) :
  p AppNews.BuildInfoCard = false -> p AppNews.ExpandButton = false ->
  filter p ((if negb isMobile then [AppNews.BuildInfoCard] else [])
            ++ (if expandable then [AppNews.ExpandButton] else [])) = [].
Proof.
  intros H1 H2. destruct isMobile, expandable; simpl; rewrite ?H1, ?H2; reflexivity.
Qed.

End AppNewsFacts.

(** X9: the news on screen are always a prefix of the news list, in the
    list's order: the first [lastNewsIdx + 1] items, or all of them when
    there are fewer.  The headline item is the head of the list, whatever
    has been expanded. *)
Theorem news_is_prefix (NewsItem : Type) (NewsItems : list NewsItem)
    (lastNewsIdx : nat) :
  AppNews.news NewsItems lastNewsIdx = firstn (S lastNewsIdx) NewsItems
  /\ length (AppNews.news NewsItems lastNewsIdx)
     = Nat.min (S lastNewsIdx) (length NewsItems)
  /\ AppNews.firstNews NewsItems lastNewsIdx = nth_error NewsItems 0.
Proof.
  split; [apply news_firstn | split; [apply length_news|]].
  unfold AppNews.firstNews. rewrite news_firstn.
  destruct NewsItems; reflexivity.
Qed.

(** X10: the "Previous News" button is there exactly while something is
    hidden: [canExpand] holds if and only if the list is longer than
    [lastNewsIdx + 1], it fails if and only if every item is on screen, and
    the page contains the button exactly when [canExpand] holds. *)
Theorem canExpand_iff_hidden (NewsItem : Type) (NewsItems : list NewsItem)
    (isMobile : bool) (lastNewsIdx : nat) :
  (AppNews.canExpand NewsItems lastNewsIdx = true
   <-> S lastNewsIdx < length NewsItems)
  /\ (AppNews.canExpand NewsItems lastNewsIdx = false
      <-> AppNews.news NewsItems lastNewsIdx = NewsItems)
  /\ existsb AppNews.isExpandButton (AppNews.renderNews NewsItems isMobile lastNewsIdx)
     = AppNews.canExpand NewsItems lastNewsIdx.
Proof.
  assert (Hiff : AppNews.canExpand NewsItems lastNewsIdx = true
                 <-> S lastNewsIdx < length NewsItems).
  { unfold AppNews.canExpand. rewrite length_news, Nat.ltb_lt. lia. }
  split; [exact Hiff | split].
  - rewrite <- not_true_iff_false, Hiff, news_firstn. split.
    + intros H. apply firstn_all2. lia.
    + intros H Hlt. apply (f_equal (@length _)) in H.
      rewrite length_firstn in H. lia.
  - unfold AppNews.renderNews. rewrite !existsb_app.
    assert (Hnone : forall (l : list NewsItem) k,
               existsb AppNews.isExpandButton
                 (AppNews.flatMapIdx AppNews.renderNewsItem l k) = false).
    { induction l as [|x l IH]; intros k; [reflexivity|].
      cbn [AppNews.flatMapIdx]. rewrite existsb_app, IH.
      unfold AppNews.renderNewsItem. destruct (k =? 2), (k =? 3); reflexivity. }
    rewrite Hnone.
    destruct isMobile, (AppNews.canExpand NewsItems lastNewsIdx); reflexivity.
Qed.

(** X11: expanding.  After [k] clicks on "Previous News" the page shows
    [min (3 + 2k) n] of the [n] news; a click made while something is hidden
    reveals one or two more items; and after [(n - 2) / 2] clicks everything
    is shown and the button is gone. *)
Theorem expanding_reaches_all (NewsItem : Type) (NewsItems : list NewsItem) :
  (forall k,
      length (AppNews.news NewsItems (Nat.iter k AppNews.expand AppNews.initialLastNewsIdx))
      = Nat.min (3 + 2 * k) (length NewsItems))
  /\ (forall lastNewsIdx,
         AppNews.canExpand NewsItems lastNewsIdx = true ->
         length (AppNews.news NewsItems lastNewsIdx)
         < length (AppNews.news NewsItems (AppNews.expand lastNewsIdx))
           <= length (AppNews.news NewsItems lastNewsIdx) + 2)
  /\ (forall k,
         (length NewsItems - 2) / 2 <= k ->
         AppNews.news NewsItems (Nat.iter k AppNews.expand AppNews.initialLastNewsIdx)
         = NewsItems
         /\ AppNews.canExpand NewsItems
              (Nat.iter k AppNews.expand AppNews.initialLastNewsIdx) = false).
Proof.
  assert (Hiter : forall k,
             Nat.iter k AppNews.expand AppNews.initialLastNewsIdx = 2 + 2 * k).
  { induction k as [|k IH]; [reflexivity|].
    simpl Nat.iter. rewrite IH. unfold AppNews.expand, AppNews.NEWS_LOAD_STEP. lia. }
  split; [|split].
  - intros k. rewrite length_news, Hiter. reflexivity.
  - intros last H. unfold AppNews.canExpand in H. apply Nat.ltb_lt in H.
    rewrite length_news in H. rewrite !length_news.
    unfold AppNews.expand, AppNews.NEWS_LOAD_STEP. lia.
  - intros k Hk.
    assert (Hall : length NewsItems <= 3 + 2 * k).
    { pose proof (Nat.div_mod_eq (length NewsItems - 2) 2) as Hdm.
      pose proof (Nat.mod_upper_bound (length NewsItems - 2) 2) as Hmod.
      lia. }
    rewrite Hiter. split.
    + rewrite news_firstn. apply firstn_all2. lia.
    + unfold AppNews.canExpand. rewrite length_news. apply Nat.ltb_ge. lia.
Qed.

Lemma expanding_reaches_all_witness :
  length (AppNews.news [1; 2; 3; 4] 2) < length (AppNews.news [1; 2; 3; 4] (AppNews.expand 2))
  /\ AppNews.news [1; 2; 3; 4; 5; 6; 7]
       (Nat.iter 2 AppNews.expand AppNews.initialLastNewsIdx)
     = [1; 2; 3; 4; 5; 6; 7].
Proof.
  destruct (expanding_reaches_all nat [1; 2; 3; 4]) as [_ [Hstep _]].
  destruct (expanding_reaches_all nat [1; 2; 3; 4; 5; 6; 7]) as [_ [_ Hall]].
  split.
  - apply Hstep. reflexivity.
  - apply Hall. vm_compute. lia.
Defined.

(** X12: the callouts of the news page.  The page holds one card per news
    on screen.  The Beam callout appears once, as soon as three news are on
    screen, hence in the first view of any list of three or more; the
    roadmap callout appears once when four news are on screen, hence never
    in the first view and always after one expansion of a list of four or
    more. *)
Theorem news_callouts (NewsItem : Type) (NewsItems : list NewsItem)
    (isMobile : bool) (lastNewsIdx : nat) :
  length (filter AppNews.isNewsCard (AppNews.renderNews NewsItems isMobile lastNewsIdx))
  = Nat.min (S lastNewsIdx) (length NewsItems)
  /\ length (filter AppNews.isBeamCallout
               (AppNews.renderNews NewsItems isMobile lastNewsIdx))
     = (if (2 <=? lastNewsIdx) && (3 <=? length NewsItems) then 1 else 0)
  /\ length (filter AppNews.isRoadmapCallout
               (AppNews.renderNews NewsItems isMobile lastNewsIdx))
     = (if (3 <=? lastNewsIdx) && (4 <=? length NewsItems) then 1 else 0)
  /\ filter AppNews.isRoadmapCallout
       (AppNews.renderNews NewsItems isMobile AppNews.initialLastNewsIdx) = [].
Proof.
  assert (Hbeam : forall (x : NewsItem) idx,
             length (filter AppNews.isBeamCallout (AppNews.renderNewsItem x idx))
             = if idx =? 2 then 1 else 0).
  { intros x idx. unfold AppNews.renderNewsItem.
    destruct (Nat.eqb_spec idx 2), (Nat.eqb_spec idx 3); simpl; lia || reflexivity. }
  assert (Hroad : forall (x : NewsItem) idx,
             length (filter AppNews.isRoadmapCallout (AppNews.renderNewsItem x idx))
             = if idx =? 3 then 1 else 0).
  { intros x idx. unfold AppNews.renderNewsItem.
    destruct (Nat.eqb_spec idx 2), (Nat.eqb_spec idx 3); simpl; lia || reflexivity. }
  assert (Hroadcount :
            forall last,
              length (filter AppNews.isRoadmapCallout
                        (AppNews.renderNews NewsItems isMobile last))
              = (if (3 <=? last) && (4 <=? length NewsItems) then 1 else 0)).
  { intros last. unfold AppNews.renderNews.
    rewrite filter_app, tail_blocks_filter, app_nil_r by reflexivity.
    rewrite (count_flatMapIdx _ _ 3 Hroad), length_news.
    destruct (Nat.leb_spec 3 last), (Nat.leb_spec 4 (length NewsItems)),
      (Nat.ltb_spec 3 (0 + Nat.min (S last) (length NewsItems)));
      simpl; lia. }
  split; [|split; [|split]].
  - unfold AppNews.renderNews.
    rewrite filter_app, tail_blocks_filter, app_nil_r by reflexivity.
    rewrite count_cards_flatMapIdx. apply length_news.
  - unfold AppNews.renderNews.
    rewrite filter_app, tail_blocks_filter, app_nil_r by reflexivity.
    rewrite (count_flatMapIdx _ _ 2 Hbeam), length_news.
    destruct (Nat.leb_spec 2 lastNewsIdx), (Nat.leb_spec 3 (length NewsItems)),
      (Nat.ltb_spec 2 (0 + Nat.min (S lastNewsIdx) (length NewsItems)));
      simpl; lia.
  - apply Hroadcount.
  - apply length_zero_iff_nil. rewrite Hroadcount. reflexivity.
Qed.

(** ** The message body *)

Section ContentFragmentsFacts.

Variable fragments : list ContentFragments.Fragment.
Variable textEditsState : option ContentFragments.TextEditsState.

(** The key the component gives the element of a content fragment. *)
Lemma render_keys_of (l : list ContentFragments.Fragment) :
  map ContentFragments.elementKey
    (ContentFragments.filterBoolean
       (map (ContentFragments.renderFragment fragments textEditsState) l))
  = map (fun f =>
           match f, textEditsState with
           | ContentFragments.ContentFragment fId (ContentFragments.PartText _), Some _ =>
               ("edit-" ++ fId)%string
           | _, _ => ContentFragments.fragmentId f
           end)
        (filter ContentFragments.isContent l).
Proof.
  induction l as [|f l IH]; [reflexivity|].
  destruct f as [fId part | ft fId]; simpl; [|exact IH].
  rewrite IH. destruct part, textEditsState; reflexivity.
Qed.

Lemma render_length_of (l : list ContentFragments.Fragment) :
  length (ContentFragments.filterBoolean
            (map (ContentFragments.renderFragment fragments textEditsState) l))
  = length (filter ContentFragments.isContent l).
Proof.
  induction l as [|f l IH]; [reflexivity|].
  destruct f as [fId part | ft fId]; simpl; [|exact IH].
  rewrite IH. reflexivity.
Qed.

Lemma render_delete_of (l : list ContentFragments.Fragment) (e : ContentFragments.Element) :
  In e (ContentFragments.filterBoolean
          (map (ContentFragments.renderFragment fragments textEditsState) l)) ->
  ContentFragments.offersDelete e = true ->
  2 <= length fragments.
Proof.
  induction l as [|f l IH]; simpl; [intros []|].
  destruct f as [fId part | ft fId]; simpl; [|exact IH].
  intros [<- | Hin]; [|apply IH; exact Hin].
  destruct part; simpl; try (destruct textEditsState; simpl; discriminate);
    try discriminate.
  unfold ContentFragments.isMonoFragment. intros H.
  apply negb_true_iff, Nat.ltb_ge in H. exact H.
Qed.

Lemma render_image_of (l : list ContentFragments.Fragment) fId imageRef :
  In (ContentFragments.ContentFragment fId (ContentFragments.PartImageRef imageRef)) l ->
  In (ContentFragments.ContentPartImageRef fId fId imageRef
        (2 <=? length fragments))
     (ContentFragments.filterBoolean
        (map (ContentFragments.renderFragment fragments textEditsState) l)).
Proof.
  assert (Heq : (2 <=? length fragments)
                = negb (ContentFragments.isMonoFragment fragments)).
  { unfold ContentFragments.isMonoFragment.
    destruct (Nat.leb_spec 2 (length fragments)),
      (Nat.ltb_spec (length fragments) 2); try reflexivity; lia. }
  rewrite Heq. clear Heq.
  induction l as [|f l IH]; simpl; [intros []|].
  intros [-> | Hin].
  - simpl. left. reflexivity.
  - destruct f as [fId' part | ft fId']; simpl; [right|]; apply IH; exact Hin.
Qed.

End ContentFragmentsFacts.

Lemma render_nontext_of (fragments : list ContentFragments.Fragment)
    (edits : ContentFragments.TextEditsState) (l : list ContentFragments.Fragment) :
  filter (fun e => negb (ContentFragments.isTextElement e))
    (ContentFragments.filterBoolean
       (map (ContentFragments.renderFragment fragments (Some edits)) l))
  = filter (fun e => negb (ContentFragments.isTextElement e))
      (ContentFragments.filterBoolean
         (map (ContentFragments.renderFragment fragments None) l)).
Proof.
  induction l as [|f l IH]; [reflexivity|].
  destruct f as [fId part | ft fId]; simpl; [|exact IH].
  destruct part; simpl; rewrite IH; reflexivity.
Qed.

Lemma render_text_of (fragments : list ContentFragments.Fragment)
    (st : option ContentFragments.TextEditsState) (l : list ContentFragments.Fragment)
    (e : ContentFragments.Element) :
  In e (ContentFragments.filterBoolean
          (map (ContentFragments.renderFragment fragments st) l)) ->
  ContentFragments.isTextElement e = true ->
  match st, e with
  | Some edits, ContentFragments.ContentPartTextEdit key fId text edited =>
      key = ("edit-" ++ fId)%string /\ edited = edits fId
      /\ In (ContentFragments.ContentFragment fId (ContentFragments.PartText text)) l
  | None, ContentFragments.ContentPartText key text =>
      In (ContentFragments.ContentFragment key (ContentFragments.PartText text)) l
  | _, _ => False
  end.
Proof.
  induction l as [|f l IH]; simpl; [intros []|].
  destruct f as [fId part | ft fId]; simpl.
  - intros [<- | Hin] Ht.
    + destruct part, st; simpl in *; try discriminate; auto.
    + specialize (IH Hin Ht). destruct st, e; auto.
      destruct IH as [H1 [H2 H3]]. auto.
  - intros Hin Ht. specialize (IH Hin Ht). destruct st, e; auto.
    destruct IH as [H1 [H2 H3]]. auto.
Qed.

Lemma NoDup_map_injective_on {A B : Type} (f : A -> B) (l : list A) :
  NoDup (map f l) -> forall a b, In a l -> In b l -> f a = f b -> a = b.
Proof.
  induction l as [|x l IH]; simpl; [intros _ a b []|].
  intros Hnd a b Ha Hb Hab. inversion Hnd as [|y l' Hnotin Hnd']; subst.
  destruct Ha as [<- | Ha], Hb as [<- | Hb]; auto.
  - exfalso. apply Hnotin. rewrite Hab. apply in_map. exact Hb.
  - exfalso. apply Hnotin. rewrite <- Hab. apply in_map. exact Ha.
Qed.

Lemma render_elements_of (fragments : list ContentFragments.Fragment)
    (st : option ContentFragments.TextEditsState) (l : list ContentFragments.Fragment) :
  map Some (ContentFragments.filterBoolean
              (map (ContentFragments.renderFragment fragments st) l))
  = map (ContentFragments.renderFragment fragments st)
      (filter ContentFragments.isContent l).
Proof.
  induction l as [|f l IH]; [reflexivity|].
  destruct f as [fId part | ft fId]; simpl; [|exact IH].
  rewrite IH. reflexivity.
Qed.

(** X13: the message body renders one element per content fragment, in the
    order of the fragments, and nothing for any other fragment, whether or
    not a text is being edited: the elements are exactly the renderings of
    the content fragments, taken in order.  Hence the keys, in order, are
    the content fragments' ids, with "edit-" put before the id of a text
    part while editing; and a message renders no element exactly when it
    has no content fragment. *)
Theorem render_one_per_content_fragment (fragments : list ContentFragments.Fragment)
    (textEditsState : option ContentFragments.TextEditsState) :
  map Some (ContentFragments.render fragments textEditsState)
  = map (ContentFragments.renderFragment fragments textEditsState)
      (filter ContentFragments.isContent fragments)
  /\ length (ContentFragments.render fragments textEditsState)
     = length (filter ContentFragments.isContent fragments)
  /\ map ContentFragments.elementKey (ContentFragments.render fragments textEditsState)
     = map (fun f =>
              match f, textEditsState with
              | ContentFragments.ContentFragment fId (ContentFragments.PartText _),
                Some _ => ("edit-" ++ fId)%string
              | _, _ => ContentFragments.fragmentId f
              end)
           (filter ContentFragments.isContent fragments)
  /\ map ContentFragments.elementKey (ContentFragments.render fragments None)
     = map ContentFragments.fragmentId (filter ContentFragments.isContent fragments)
  /\ (ContentFragments.render fragments textEditsState = []
      <-> forall f, In f fragments -> ContentFragments.isContent f = false).
Proof.
  split; [|split; [apply render_length_of | split; [apply render_keys_of | split]]].
  - apply render_elements_of.
  - unfold ContentFragments.render. rewrite render_keys_of.
    apply map_ext. intros [fId [] | ft fId]; reflexivity.
  - rewrite <- length_zero_iff_nil.
    unfold ContentFragments.render. rewrite render_length_of, length_zero_iff_nil.
    split.
    + intros H f Hin. destruct (ContentFragments.isContent f) eqn:E; [|reflexivity].
      assert (Hf : In f (filter ContentFragments.isContent fragments))
        by (apply filter_In; auto).
      rewrite H in Hf. destruct Hf.
    + intros H. induction fragments as [|f l IH]; [reflexivity|].
      simpl. rewrite (H f (or_introl eq_refl)). apply IH.
      intros g Hg. apply H. right. exact Hg.
Qed.

(** X14: an image can be deleted only from a message of at least two
    fragments.  No element offers deletion when the message has fewer than
    two fragments, so a message is never emptied by deleting its only
    fragment; every image of a longer message offers it.  The count is over
    all fragments, also those that render nothing. *)
Theorem delete_needs_two_fragments (fragments : list ContentFragments.Fragment)
    (textEditsState : option ContentFragments.TextEditsState) :
  (forall e,
      In e (ContentFragments.render fragments textEditsState) ->
      ContentFragments.offersDelete e = true ->
      2 <= length fragments)
  /\ (forall fId imageRef,
         In (ContentFragments.ContentFragment fId (ContentFragments.PartImageRef imageRef))
            fragments ->
         In (ContentFragments.ContentPartImageRef fId fId imageRef
               (2 <=? length fragments))
            (ContentFragments.render fragments textEditsState)).
Proof.
  split.
  - intros e. apply render_delete_of.
  - intros fId imageRef. apply render_image_of.
Qed.

(** An image with an attachment beside it (which renders nothing) can be
    deleted; the same image alone cannot. *)
Lemma delete_needs_two_fragments_witness :
  In (ContentFragments.ContentPartImageRef "f1" "f1" "img" true)
     (ContentFragments.render
        [ContentFragments.ContentFragment "f1" (ContentFragments.PartImageRef "img");
         ContentFragments.OtherFragment "attachment" "f2"] None)
  /\ In (ContentFragments.ContentPartImageRef "f1" "f1" "img" false)
        (ContentFragments.render
           [ContentFragments.ContentFragment "f1" (ContentFragments.PartImageRef "img")]
           None).
Proof.
  split.
  - apply (proj2 (delete_needs_two_fragments
                    [ContentFragments.ContentFragment "f1" (ContentFragments.PartImageRef "img");
                     ContentFragments.OtherFragment "attachment" "f2"] None)).
    left. reflexivity.
  - apply (proj2 (delete_needs_two_fragments
                    [ContentFragments.ContentFragment "f1" (ContentFragments.PartImageRef "img")]
                    None)).
    left. reflexivity.
Defined.

(** X15: editing changes the text parts only.  The elements that are not
    text are the same, in the same order, whether or not a text is being
    edited.  While editing, every text part is an editor keyed "edit-" plus
    the fragment id and holding the edited text recorded for that id; when
    not editing, every text part is a plain text element keyed by the
    fragment id. *)
Theorem editing_changes_text_parts_only (fragments : list ContentFragments.Fragment)
    (edits : ContentFragments.TextEditsState) :
  filter (fun e => negb (ContentFragments.isTextElement e))
    (ContentFragments.render fragments (Some edits))
  = filter (fun e => negb (ContentFragments.isTextElement e))
      (ContentFragments.render fragments None)
  /\ (forall e,
         In e (ContentFragments.render fragments (Some edits)) ->
         ContentFragments.isTextElement e = true ->
         exists fId text,
           e = ContentFragments.ContentPartTextEdit ("edit-" ++ fId) fId text (edits fId)
           /\ In (ContentFragments.ContentFragment fId (ContentFragments.PartText text))
                 fragments)
  /\ (forall e,
         In e (ContentFragments.render fragments None) ->
         ContentFragments.isTextElement e = true ->
         exists fId text,
           e = ContentFragments.ContentPartText fId text
           /\ In (ContentFragments.ContentFragment fId (ContentFragments.PartText text))
                 fragments).
Proof.
  split; [apply render_nontext_of | split].
  - intros e Hin Ht.
    pose proof (render_text_of fragments (Some edits) fragments e Hin Ht) as H.
    destruct e; try contradiction. destruct H as [-> [-> H]].
    eexists _, _. split; [reflexivity | exact H].
  - intros e Hin Ht.
    pose proof (render_text_of fragments None fragments e Hin Ht) as H.
    destruct e; try contradiction.
    eexists _, _. split; [reflexivity | exact H].
Qed.

Lemma editing_changes_text_parts_only_witness :
  exists fId text,
    ContentFragments.ContentPartTextEdit "edit-f1" "f1" "hello" (Some "hullo"%string)
    = ContentFragments.ContentPartTextEdit ("edit-" ++ fId) fId text
        ((fun _ => Some "hullo"%string) fId)
    /\ In (ContentFragments.ContentFragment fId (ContentFragments.PartText text))
          [ContentFragments.ContentFragment "f1" (ContentFragments.PartText "hello")].
Proof.
  apply (proj1 (proj2 (editing_changes_text_parts_only
                         [ContentFragments.ContentFragment "f1"
                            (ContentFragments.PartText "hello")]
                         (fun _ => Some "hullo"%string)))).
  - left. reflexivity.
  - reflexivity.
Defined.

(** X16: element keys.  When the fragment ids are distinct, the keys of the
    rendered elements are distinct if no text is being edited; while
    editing they are distinct provided no fragment id starts with "edit-",
    and that proviso is needed. *)
Theorem element_keys_distinct (fragments : list ContentFragments.Fragment) :
  NoDup (map ContentFragments.fragmentId fragments) ->
  NoDup (map ContentFragments.elementKey (ContentFragments.render fragments None))
  /\ (forall edits,
         (forall f, In f fragments ->
                    String.prefix "edit-" (ContentFragments.fragmentId f) = false) ->
         NoDup (map ContentFragments.elementKey
                  (ContentFragments.render fragments (Some edits))))
  /\ (exists fs edits,
         NoDup (map ContentFragments.fragmentId fs)
         /\ ~ NoDup (map ContentFragments.elementKey
                       (ContentFragments.render fs (Some edits)))).
Proof.
  intros Hnd.
  assert (Hinj := NoDup_map_injective_on ContentFragments.fragmentId fragments Hnd).
  assert (Hfs : NoDup fragments) by (apply NoDup_map_inv in Hnd; exact Hnd).
  assert (Hcontent : NoDup (filter ContentFragments.isContent fragments))
    by (apply NoDup_filter; exact Hfs).
  split; [|split].
  - unfold ContentFragments.render. rewrite render_keys_of.
    apply NoDup_map_NoDup_ForallPairs; [|exact Hcontent].
    intros a b Ha Hb Hab. apply filter_In in Ha as [Ha _]. apply filter_In in Hb as [Hb _].
    apply Hinj; try assumption.
    destruct a as [? []|], b as [? []|]; exact Hab.
  - intros edits Hpre. unfold ContentFragments.render. rewrite render_keys_of.
    apply NoDup_map_NoDup_ForallPairs; [|exact Hcontent].
    intros a b Ha Hb Hab. apply filter_In in Ha as [Ha _]. apply filter_In in Hb as [Hb _].
    apply Hinj; try assumption.
    pose proof (Hpre a Ha) as Hpa. pose proof (Hpre b Hb) as Hpb.
    destruct a as [ia []|? ia], b as [ib []|? ib]; simpl in *;
      try exact Hab;
      try (injection Hab as Hab; exact Hab);
      try (rewrite <- Hab in Hpb; simpl in Hpb;
           destruct ia; discriminate);
      try (rewrite Hab in Hpa; simpl in Hpa;
           destruct ib; discriminate).
  - exists [ContentFragments.ContentFragment "a" (ContentFragments.PartText "x");
            ContentFragments.ContentFragment "edit-a"
              (ContentFragments.PartImageRef "y")],
           (fun _ => None).
    split.
    + repeat constructor; simpl; intuition discriminate.
    + simpl. intros H. inversion H as [|k l Hnotin _]; subst.
      apply Hnotin. left. reflexivity.
Qed.

Lemma element_keys_distinct_witness :
  NoDup (map ContentFragments.elementKey
           (ContentFragments.render
              [ContentFragments.ContentFragment "f1" (ContentFragments.PartText "hello");
               ContentFragments.ContentFragment "f2" (ContentFragments.PartError "oops")]
              (Some (fun _ => None)))).
Proof.
  apply (proj1 (proj2 (element_keys_distinct
                         [ContentFragments.ContentFragment "f1"
                            (ContentFragments.PartText "hello");
                          ContentFragments.ContentFragment "f2"
                            (ContentFragments.PartError "oops")]
                         ltac:(repeat constructor; simpl; intuition discriminate)))).
  intros f [<- | [<- | []]]; reflexivity.
Defined.

(** ** Model vendor setups *)

Lemma orElse_empty (o : option string) :
  orElse o "" = match o with Some s => s | None => ""%string end.
Proof. destruct o as [[|a s]|]; reflexivity. Qed.

(** X17: the OpenPipe setup.  A setup is valid exactly when it has a key of
    at least 40 characters, so a freshly initialized setup is not; the
    access built from a valid setup carries that key unchanged, and the
    tags travel as the organisation.  Every access has the [openpipe]
    dialect, no host, no Helicone key and no moderation check, and a missing
    setup gives the same access as a fresh one. *)
Theorem openpipe_setup_transport :
  OpenPipe.validateSetup OpenPipe.initializeSetup = false
  /\ (forall s,
         OpenPipe.validateSetup s = true
         <-> exists k, OpenPipe.openPipeKey s = Some k /\ 40 <= String.length k)
  /\ (forall s,
         OpenPipe.validateSetup s = true ->
         Some (OpenPipe.oaiKey (OpenPipe.getTransportAccess (Some s)))
         = OpenPipe.openPipeKey s)
  /\ (forall s t,
         OpenPipe.openPipeTags s = Some t ->
         OpenPipe.oaiOrg (OpenPipe.getTransportAccess (Some s)) = t)
  /\ (forall p,
         OpenPipe.dialect (OpenPipe.getTransportAccess p) = "openpipe"%string
         /\ OpenPipe.oaiHost (OpenPipe.getTransportAccess p) = ""%string
         /\ OpenPipe.heliKey (OpenPipe.getTransportAccess p) = ""%string
         /\ OpenPipe.moderationCheck (OpenPipe.getTransportAccess p) = false)
  /\ OpenPipe.getTransportAccess None
     = OpenPipe.getTransportAccess (Some OpenPipe.initializeSetup).
Proof.
  split; [reflexivity | split; [|split; [|split; [|split]]]].
  - intros s. unfold OpenPipe.validateSetup.
    destruct (OpenPipe.openPipeKey s) as [k|].
    + rewrite Nat.leb_le. split.
      * intros H. exists k. auto.
      * intros [k' [[= <-] H]]. exact H.
    + split; [discriminate | intros [k [H _]]; discriminate].
  - intros s. unfold OpenPipe.validateSetup, OpenPipe.getTransportAccess.
    cbn [OpenPipe.oaiKey]. rewrite orElse_empty.
    destruct (OpenPipe.openPipeKey s); [reflexivity | discriminate].
  - intros s t H. unfold OpenPipe.getTransportAccess. cbn [OpenPipe.oaiOrg].
    rewrite orElse_empty, H. reflexivity.
  - intros p. repeat split.
  - reflexivity.
Qed.

Lemma openpipe_setup_transport_witness :
  Some (OpenPipe.oaiKey
          (OpenPipe.getTransportAccess
             (Some (OpenPipe.mkSetup
                      (Some "opk_0123456789abcdef0123456789abcdef0123456789"%string)
                      (Some "tag"%string)))))
  = Some "opk_0123456789abcdef0123456789abcdef0123456789"%string.
Proof.
  apply (proj1 (proj2 (proj2 openpipe_setup_transport))
           (OpenPipe.mkSetup
              (Some "opk_0123456789abcdef0123456789abcdef0123456789"%string)
              (Some "tag"%string))).
  reflexivity.
Defined.



(** ** Build information *)

Lemma string_app_empty_r (s : string) : (s ++ "")%string = s.
Proof. induction s as [|a s IH]; simpl; [reflexivity | rewrite IH; reflexivity]. Qed.

Lemma string_app_assoc (a b c : string) : ((a ++ b) ++ c)%string = (a ++ b ++ c)%string.
Proof. induction a as [|x a IH]; simpl; [reflexivity | rewrite IH; reflexivity]. Qed.

Lemma mapSeparated_concat {A : Type} (text : A -> string) (n : nat) (l : list A) :
  forall idx,
    idx + length l = n ->
    String.concat "" (BuildInfo.mapSeparated text n l idx)
    = String.concat ", " (map text l).
Proof.
  induction l as [|x l IH]; intros idx Hn; [reflexivity|].
  cbn [BuildInfo.mapSeparated map]. cbn [length] in Hn.
  specialize (IH (S idx) ltac:(lia)).
  destruct l as [|y l].
  - cbn [BuildInfo.mapSeparated String.concat map].
    destruct (Z.ltb_spec (Z.of_nat idx) (Z.of_nat n - 1)); [cbn [length] in Hn; lia|].
    apply string_app_empty_r.
  - cbn [String.concat] in *. cbn [BuildInfo.mapSeparated] in *. cbn [map] in *.
    cbn [String.concat] in *.
    destruct (Z.ltb_spec (Z.of_nat idx) (Z.of_nat n - 1)); [|cbn [length] in Hn; lia].
    rewrite IH. simpl. rewrite string_app_assoc. reflexivity.
Qed.

(** X19: the lists of the build-information sheet are comma separated with
    no trailing separator: the text of a list is its entries' texts joined
    by a comma and a space, whatever the number of entries (nothing for an
    empty list, the entry alone for a single one). *)
Theorem build_info_lists_are_joined (names : list string)
    (levels : list (string * string)) :
  BuildInfo.listText (fun name => name) names = String.concat ", " names
  /\ BuildInfo.listText BuildInfo.techLevelText levels
     = String.concat ", " (map BuildInfo.techLevelText levels).
Proof.
  unfold BuildInfo.listText. split.
  - rewrite (mapSeparated_concat (fun name => name) (length names) names 0 eq_refl).
    rewrite map_id. reflexivity.
  - apply mapSeparated_concat. reflexivity.
Qed.
